(** * duo_web: signing and verification of Duo Web request/response tokens

    A shallow embedding of [src/duo_web/__init__.py] (Python 2) and the
    properties of its public operations [sign_request],
    [sign_enroll_request], [verify_response] and [verify_enroll_response].

    Conventions of the embedding:
    - a Python byte string ([str]) is a [string], [len] is [String.length];
    - [int(time.time())] is an explicit argument of type [Z], one per read
      of the clock, in the order in which the source reads it;
    - a Python call that may raise evaluates to a [result]; [None] is the
      [None] of [option];
    - the standard-library calls of the source ([hmac.new(..).hexdigest()],
      [base64.b64encode], [base64.b64decode], [int] on a string) are the
      fields of the class [Primitives]; module [Reference] implements them
      (RFC 3174, RFC 2104, RFC 4648) so that every definition runs. *)

From Stdlib Require Import String Ascii List ZArith Lia Bool Arith.
From Stdlib Require Import DecimalString DecimalZ Decimal.
Import ListNotations.

Local Open Scope string_scope.
Local Open Scope Z_scope.

(* ------------------------------------------------------------------ *)
(** ** Python strings *)

(** [sep in s] for a one-character [sep]. *)
Fixpoint contains (sep : ascii) (s : string) : bool :=
  match s with
  | EmptyString => false
  | String c s' => Ascii.eqb c sep || contains sep s'
  end.

(** [s.count(sep)] for a one-character [sep]. *)
Fixpoint count (sep : ascii) (s : string) : nat :=
  match s with
  | EmptyString => O
  | String c s' => if Ascii.eqb c sep then S (count sep s') else count sep s'
  end.

(** [s.split(sep)] for a one-character [sep]: the fields between the
    occurrences of [sep], empty fields kept; never the empty list. *)
Fixpoint split (sep : ascii) (s : string) : list string :=
  match s with
  | EmptyString => [EmptyString]
  | String c s' =>
      if Ascii.eqb c sep then EmptyString :: split sep s'
      else match split sep s' with
           | [] => [String c EmptyString]
           | w :: ws => String c w :: ws
           end
  end.

(** [sep.join(l)]. *)
Fixpoint join (sep : string) (l : list string) : string :=
  match l with
  | [] => EmptyString
  | [x] => x
  | x :: r => x ++ sep ++ join sep r
  end.

(** [not s]: the empty string is the only false one. *)
Definition py_not (s : string) : bool :=
  match s with
  | EmptyString => true
  | String _ _ => false
  end.

(** [str(n)] for an integer [n]: decimal digits, ["-"] first when negative. *)
Definition py_str (n : Z) : string := NilZero.string_of_int (Z.to_int n).

(** [a != b] on values that are a string or [None]. *)
Definition py_ne (a b : option string) : bool :=
  match a, b with
  | Some x, Some y => negb (String.eqb x y)
  | None, None => false
  | _, _ => true
  end.

(* ------------------------------------------------------------------ *)
(** ** Exceptions *)

Inductive exn : Type :=
| ValueError
| TypeError.

Inductive result (A : Type) : Type :=
| Return (a : A)
| Raise (e : exn).

Arguments Return {A} a.
Arguments Raise {A} e.

Definition bind {A B : Type} (m : result A) (k : A -> result B) : result B :=
  match m with
  | Return a => k a
  | Raise e => Raise e
  end.

Notation "x <- m ;; k" := (bind m (fun x => k))
  (at level 61, m at next level, right associativity).
Notation "' p <- m ;; k" := (bind m (fun x => let 'p := x in k))
  (at level 61, p pattern, m at next level, right associativity).

(** [a, b = l]: unpacking a list into two names. *)
Definition unpack2 (l : list string) : result (string * string) :=
  match l with
  | [a; b] => Return (a, b)
  | _ => Raise ValueError
  end.

(** [a, b, c = l]: unpacking a list into three names. *)
Definition unpack3 (l : list string) : result (string * string * string) :=
  match l with
  | [a; b; c] => Return (a, b, c)
  | _ => Raise ValueError
  end.

(* ------------------------------------------------------------------ *)
(** ** The standard-library calls of the source *)

Class Primitives : Type := {
  (** [hmac.new(key, msg, hashlib.sha1).hexdigest()] *)
  hmac_sha1_hexdigest : string -> string -> string;
  (** [base64.b64encode(s)] *)
  b64encode : string -> string;
  (** [base64.b64decode(s)]; raises [TypeError] on incorrect padding *)
  b64decode : string -> result string;
  (** [int(s)]; raises [ValueError] on an invalid literal *)
  py_int : string -> result Z
}.

(* ------------------------------------------------------------------ *)
(** ** The module *)

Definition DUO_PREFIX : string := "TX".
Definition APP_PREFIX : string := "APP".
Definition AUTH_PREFIX : string := "AUTH".
Definition ENROLL_PREFIX : string := "ENROLL".
Definition ENROLL_REQUEST_PREFIX : string := "ENROLL_REQUEST".

Definition DUO_EXPIRE : Z := 300.
Definition APP_EXPIRE : Z := 3600.

Definition IKEY_LEN : nat := 20.
Definition SKEY_LEN : nat := 40.
Definition AKEY_LEN : nat := 40.

Definition ERR_USER : string :=
  "ERR|The username passed to sign_request() is invalid.".
Definition ERR_IKEY : string :=
  "ERR|The Duo integration key passed to sign_request() is invalid.".
Definition ERR_SKEY : string :=
  "ERR|The Duo secret key passed to sign_request() is invalid.".
Definition ERR_AKEY : string :=
  "ERR|The application secret key passed to sign_request() must be at least "
  ++ py_str (Z.of_nat AKEY_LEN) ++ " characters.".
Definition ERR_UNKNOWN : string := "ERR|An unknown error has occurred.".

Section Duo.

Context {P : Primitives}.

Definition _hmac_sha1 (key msg : string) : string :=
  hmac_sha1_hexdigest key msg.

(** [now] is the value of [int(time.time())] read on the first line. *)
Definition _sign_vals (key : string) (vals : list string) (prefix : string)
    (expire : Z) (now : Z) : string :=
  let exp := py_str (now + expire) in
  let val := join "|" (vals ++ [exp]) in
  let b64 := b64encode val in
  let cookie := prefix ++ "|" ++ b64 in
  let sig := _hmac_sha1 key cookie in
  cookie ++ "|" ++ sig.

(** [ts] is the value of [int(time.time())] read on the first line. *)
Definition _parse_vals (key val prefix : string) (ts : Z)
    : result (option string) :=
  '(u_prefix, u_b64, u_sig) <- unpack3 (split "|" val) ;;
  let sig := _hmac_sha1 key (u_prefix ++ "|" ++ u_b64) in
  if negb (String.eqb (_hmac_sha1 key sig) (_hmac_sha1 key u_sig)) then
    Return None
  else if negb (String.eqb u_prefix prefix) then
    Return None
  else
    decoded <- b64decode u_b64 ;;
    '(user, ikey, exp) <- unpack3 (split "|" decoded) ;;
    exp_i <- py_int exp ;;
    if ts >=? exp_i then Return None
    else Return (Some user).

(** [t_duo] and [t_app] are the clock readings of the two [_sign_vals]
    calls.  The [try] block is the bound computation; [except] maps a raised
    exception to [ERR_UNKNOWN]. *)
Definition _sign_request (ikey skey akey username prefix : string)
    (t_duo t_app : Z) : result string :=
  if py_not username then Return ERR_USER
  else if py_not ikey || negb (Nat.eqb (String.length ikey) IKEY_LEN) then
    Return ERR_IKEY
  else if py_not skey || negb (Nat.eqb (String.length skey) SKEY_LEN) then
    Return ERR_SKEY
  else if py_not akey || Nat.ltb (String.length akey) AKEY_LEN then
    Return ERR_AKEY
  else
    let vals := [username; ikey] in
    match (duo_sig <- Return (_sign_vals skey vals prefix DUO_EXPIRE t_duo) ;;
           app_sig <- Return (_sign_vals akey vals APP_PREFIX APP_EXPIRE t_app) ;;
           Return (duo_sig, app_sig)) with
    | Raise _ => Return ERR_UNKNOWN
    | Return (duo_sig, app_sig) => Return (duo_sig ++ ":" ++ app_sig)
    end.

Definition sign_request (ikey skey akey username : string) (t_duo t_app : Z)
    : result string :=
  _sign_request ikey skey akey username DUO_PREFIX t_duo t_app.

Definition sign_enroll_request (ikey skey akey username : string)
    (t_duo t_app : Z) : result string :=
  _sign_request ikey skey akey username ENROLL_REQUEST_PREFIX t_duo t_app.

(** [ts_duo] and [ts_app] are the clock readings of the two [_parse_vals]
    calls.  The [try] block is the bound computation; the bare [except]
    returns [None] whatever was raised. *)
Definition _verify_response (ikey skey akey prefix sig_response : string)
    (ts_duo ts_app : Z) : result (option string) :=
  match ('(sig, app_sig) <- unpack2 (split ":" sig_response) ;;
         user <- _parse_vals skey sig prefix ts_duo ;;
         app_user <- _parse_vals akey app_sig APP_PREFIX ts_app ;;
         Return (user, app_user)) with
  | Raise _ => Return None
  | Return (user, app_user) =>
      if py_ne user app_user then Return None
      else Return user
  end.

Definition verify_response (ikey skey akey sig_response : string)
    (ts_duo ts_app : Z) : result (option string) :=
  _verify_response ikey skey akey AUTH_PREFIX sig_response ts_duo ts_app.

Definition verify_enroll_response (ikey skey akey sig_response : string)
    (ts_duo ts_app : Z) : result (option string) :=
  _verify_response ikey skey akey ENROLL_PREFIX sig_response ts_duo ts_app.

End Duo.

(* ------------------------------------------------------------------ *)
(** ** Reference implementation of the standard-library calls *)

Module Reference.

(** Bytes of a string, as integers in [0, 256). *)
Fixpoint bytes_of_string (s : string) : list Z :=
  match s with
  | EmptyString => []
  | String c s' => Z.of_N (N_of_ascii c) :: bytes_of_string s'
  end.

(** *** SHA-1 (RFC 3174) on 32-bit words *)

Definition w32 (x : Z) : Z := x mod 2 ^ 32.

Definition rotl (n x : Z) : Z :=
  w32 (Z.lor (Z.shiftl x n) (Z.shiftr x (32 - n))).

(** Four bytes, most significant first, as one word. *)
Definition word_of_bytes (b0 b1 b2 b3 : Z) : Z :=
  Z.lor (Z.shiftl b0 24) (Z.lor (Z.shiftl b1 16) (Z.lor (Z.shiftl b2 8) b3)).

Fixpoint words_of_bytes (l : list Z) : list Z :=
  match l with
  | b0 :: b1 :: b2 :: b3 :: r => word_of_bytes b0 b1 b2 b3 :: words_of_bytes r
  | _ => []
  end.

(** [n] as [k] bytes, most significant first. *)
Fixpoint bytes_be (k : nat) (n : Z) : list Z :=
  match k with
  | O => []
  | S k' => Z.shiftr n (8 * Z.of_nat k') mod 256 :: bytes_be k' n
  end.

(** The message, a 1 bit, zero bits up to 56 modulo 64 bytes, and the bit
    length on 64 bits. *)
Definition pad (msg : list Z) : list Z :=
  let len := Z.of_nat (List.length msg) in
  let zeros := Z.to_nat ((55 - len) mod 64) in
  (msg ++ [128] ++ repeat 0 zeros ++ bytes_be 8 (8 * len))%list.

(** [n] further words of the message schedule from the last sixteen. *)
Fixpoint expand (n : nat) (w : list Z) : list Z :=
  match n with
  | O => []
  | S n' =>
      let x := rotl 1 (Z.lxor (Z.lxor (nth 13 w 0) (nth 8 w 0))
                              (Z.lxor (nth 2 w 0) (nth 0 w 0))) in
      x :: expand n' (tl w ++ [x])%list
  end.

Definition schedule (block : list Z) : list Z :=
  (block ++ expand 64 block)%list.

Definition f_k (t : nat) (b c d : Z) : Z * Z :=
  if Nat.ltb t 20 then
    (Z.lor (Z.land b c) (Z.land (Z.lxor b (2 ^ 32 - 1)) d), 1518500249)
  else if Nat.ltb t 40 then (Z.lxor (Z.lxor b c) d, 1859775393)
  else if Nat.ltb t 60 then
    (Z.lor (Z.lor (Z.land b c) (Z.land b d)) (Z.land c d), 2400959708)
  else (Z.lxor (Z.lxor b c) d, 3395469782).

Record state : Type := mk_state { ha : Z; hb : Z; hc : Z; hd : Z; he : Z }.

Definition round (st : state * nat) (w : Z) : state * nat :=
  let '(mk_state a b c d e, t) := st in
  let '(f, k) := f_k t b c d in
  let tmp := w32 (rotl 5 a + f + e + k + w) in
  (mk_state tmp a (rotl 30 b) c d, S t).

Definition compress (h : state) (block : list Z) : state :=
  let '(mk_state a b c d e, _) := fold_left round (schedule block) (h, O) in
  mk_state (w32 (ha h + a)) (w32 (hb h + b)) (w32 (hc h + c))
           (w32 (hd h + d)) (w32 (he h + e)).

(** The words sixteen at a time; [fuel] bounds the number of blocks. *)
Fixpoint blocks (fuel : nat) (h : state) (ws : list Z) : state :=
  match fuel, ws with
  | S fuel', _ :: _ => blocks fuel' (compress h (firstn 16 ws)) (skipn 16 ws)
  | _, _ => h
  end.

Definition sha1_init : state :=
  mk_state 1732584193 4023233417 2562383102 271733878 3285377520.

(** The 20 bytes of the digest. *)
Definition sha1 (msg : list Z) : list Z :=
  let ws := words_of_bytes (pad msg) in
  let h := blocks (List.length ws) sha1_init ws in
  (bytes_be 4 (ha h) ++ bytes_be 4 (hb h) ++ bytes_be 4 (hc h)
   ++ bytes_be 4 (hd h) ++ bytes_be 4 (he h))%list.

(** *** HMAC (RFC 2104), block size 64 *)

Definition hmac_sha1 (key msg : list Z) : list Z :=
  let k := if Nat.ltb 64 (List.length key) then sha1 key else key in
  let k := (k ++ repeat 0 (64 - List.length k))%list in
  let ipad := map (fun b => Z.lxor b 54) k in
  let opad := map (fun b => Z.lxor b 92) k in
  sha1 (opad ++ sha1 (ipad ++ msg))%list.

(** *** Lowercase hexadecimal *)

Definition hex_alphabet : list ascii :=
  list_ascii_of_string "0123456789abcdef".

Definition hexdigit (n : Z) : ascii :=
  nth (Z.to_nat (n mod 16)) hex_alphabet "0"%char.

Fixpoint hex_of_bytes (l : list Z) : string :=
  match l with
  | [] => EmptyString
  | b :: r => String (hexdigit (b / 16)) (String (hexdigit b) (hex_of_bytes r))
  end.

Definition hexdigest (key msg : string) : string :=
  hex_of_bytes (hmac_sha1 (bytes_of_string key) (bytes_of_string msg)).

(** *** Base64 (RFC 4648), standard alphabet with padding *)

Definition b64_alphabet : list ascii :=
  list_ascii_of_string
    "ABCDEFGHIJKLMNOPQRSTUVWXYZabcdefghijklmnopqrstuvwxyz0123456789+/".

Definition b64char (n : Z) : ascii :=
  nth (Z.to_nat (n mod 64)) b64_alphabet "A"%char.

(** The position of [c] in [l], counted from [i]. *)
Fixpoint index_from (i : Z) (c : ascii) (l : list ascii) : option Z :=
  match l with
  | [] => None
  | x :: r => if Ascii.eqb x c then Some i else index_from (i + 1) c r
  end.

Definition b64val (c : ascii) : option Z := index_from 0 c b64_alphabet.

Definition byte (c : ascii) : Z := Z.of_N (N_of_ascii c).
Definition chr (n : Z) : ascii := ascii_of_N (Z.to_N (n mod 256)).

Fixpoint encode (s : string) : string :=
  match s with
  | EmptyString => EmptyString
  | String a EmptyString =>
      let x := byte a in
      String (b64char (x / 4)) (String (b64char (x mod 4 * 16)) "==")
  | String a (String b EmptyString) =>
      let x := byte a in
      let y := byte b in
      String (b64char (x / 4))
        (String (b64char (x mod 4 * 16 + y / 16))
           (String (b64char (y mod 16 * 4)) "="))
  | String a (String b (String c r)) =>
      let x := byte a in
      let y := byte b in
      let z := byte c in
      String (b64char (x / 4))
        (String (b64char (x mod 4 * 16 + y / 16))
           (String (b64char (y mod 16 * 4 + z / 64))
              (String (b64char (z mod 64)) (encode r))))
  end.

(** Strict decoding: groups of four characters of the alphabet, the last
    one possibly padded with one or two ["="].  It agrees with the library
    on every output of [encode]; the library also skips characters outside
    the alphabet, which are refused here. *)
Fixpoint decode (s : string) : result string :=
  match s with
  | EmptyString => Return EmptyString
  | String c1 (String c2 (String c3 (String c4 r))) =>
      match b64val c1, b64val c2 with
      | Some v1, Some v2 =>
          let x := chr (v1 * 4 + v2 / 16) in
          match b64val c3, b64val c4, r with
          | Some v3, Some v4, _ =>
              let y := chr (v2 mod 16 * 16 + v3 / 4) in
              let z := chr (v3 mod 4 * 64 + v4) in
              rest <- decode r ;;
              Return (String x (String y (String z rest)))
          | Some v3, None, EmptyString =>
              if Ascii.eqb c4 "=" then
                Return (String x (String (chr (v2 mod 16 * 16 + v3 / 4)) ""))
              else Raise TypeError
          | None, None, EmptyString =>
              if Ascii.eqb c3 "=" && Ascii.eqb c4 "=" then
                Return (String x "")
              else Raise TypeError
          | _, _, _ => Raise TypeError
          end
      | _, _ => Raise TypeError
      end
  | _ => Raise TypeError
  end.

(** *** [int] on a decimal literal *)

Definition int_of_string (s : string) : result Z :=
  match NilZero.int_of_string s with
  | Some d => Return (Z.of_int d)
  | None => Raise ValueError
  end.

#[global] Instance primitives : Primitives := {|
  hmac_sha1_hexdigest := hexdigest;
  b64encode := encode;
  b64decode := decode;
  py_int := int_of_string
|}.

End Reference.

(* ------------------------------------------------------------------ *)
(** ** Facts about [split], [count] and [contains] *)

Lemma app_assoc_str (a b c : string) : (a ++ b) ++ c = a ++ (b ++ c).
Proof.
  induction a as [|x a IH]; simpl; [reflexivity | now rewrite IH].
Qed.

Lemma contains_app (c : ascii) (a b : string) :
  contains c (a ++ b) = contains c a || contains c b.
Proof.
  induction a as [|x a IH]; simpl; [reflexivity |].
  now rewrite IH, orb_assoc.
Qed.

Lemma count_app (c : ascii) (a b : string) :
  count c (a ++ b) = (count c a + count c b)%nat.
Proof.
  induction a as [|x a IH]; simpl; [reflexivity |].
  destruct (Ascii.eqb x c); simpl; now rewrite IH.
Qed.

Lemma count_contains (c : ascii) (s : string) :
  contains c s = false <-> count c s = O.
Proof.
  induction s as [|x s IH]; simpl; [tauto |].
  destruct (Ascii.eqb x c); simpl; [split; discriminate | exact IH].
Qed.

Lemma contains_count_pos (c : ascii) (s : string) :
  contains c s = true -> (1 <= count c s)%nat.
Proof.
  intros H. destruct (count c s) eqn:E; [| lia].
  apply count_contains in E. congruence.
Qed.

Lemma split_not_nil (c : ascii) (s : string) : split c s <> [].
Proof.
  destruct s as [|x s]; simpl; [discriminate |].
  destruct (Ascii.eqb x c); [discriminate |].
  destruct (split c s); discriminate.
Qed.

Lemma length_split (c : ascii) (s : string) :
  List.length (split c s) = S (count c s).
Proof.
  induction s as [|x s IH]; simpl; [reflexivity |].
  destruct (Ascii.eqb x c); simpl; [now rewrite IH |].
  destruct (split c s) eqn:E; [now apply split_not_nil in E | exact IH].
Qed.

Lemma split_no_sep (c : ascii) (s : string) :
  contains c s = false -> split c s = [s].
Proof.
  induction s as [|x s IH]; simpl; [reflexivity |].
  destruct (Ascii.eqb x c); simpl; [discriminate |].
  intros H. now rewrite (IH H).
Qed.

Lemma split_app_sep (c : ascii) (a b : string) :
  contains c a = false -> split c (a ++ String c b) = a :: split c b.
Proof.
  induction a as [|x a IH]; simpl.
  - intros _. now rewrite Ascii.eqb_refl.
  - destruct (Ascii.eqb x c); simpl; [discriminate |].
    intros H. now rewrite (IH H).
Qed.

(** The first field of a split string extends the separator-free head. *)
Lemma split_head (c : ascii) (a b : string) :
  contains c a = false ->
  exists w ws, split c (a ++ b) = (a ++ w) :: ws.
Proof.
  induction a as [|x a IH]; simpl.
  - intros _. destruct (split c b) as [|w ws] eqn:E.
    + now apply split_not_nil in E.
    + now exists w, ws.
  - destruct (Ascii.eqb x c); simpl; [discriminate |].
    intros H. destruct (IH H) as (w & ws & ->). now exists w, ws.
Qed.

Lemma split2 (c : ascii) (a b : string) :
  contains c a = false -> contains c b = false ->
  split c (a ++ String c b) = [a; b].
Proof.
  intros Ha Hb. now rewrite split_app_sep, (split_no_sep c b).
Qed.

Lemma split3 (c : ascii) (a b d : string) :
  contains c a = false -> contains c b = false -> contains c d = false ->
  split c (a ++ String c (b ++ String c d)) = [a; b; d].
Proof.
  intros Ha Hb Hd. now rewrite split_app_sep, split2.
Qed.

Lemma unpack3_count (c : ascii) (s : string) :
  count c s <> 2%nat -> unpack3 (split c s) = Raise ValueError.
Proof.
  intros H. pose proof (length_split c s) as L.
  destruct (split c s) as [|a [|b [|d [|e r]]]]; simpl in *; try reflexivity.
  congruence.
Qed.

Lemma unpack2_inv (l : list string) (a b : string) :
  unpack2 l = Return (a, b) -> l = [a; b].
Proof.
  destruct l as [|x [|y [|z r]]]; simpl; try discriminate.
  now intros [= -> ->].
Qed.

Lemma unpack3_inv (l : list string) (a b d : string) :
  unpack3 l = Return (a, b, d) -> l = [a; b; d].
Proof.
  destruct l as [|x [|y [|z [|e r]]]]; simpl; try discriminate.
  now intros [= -> -> ->].
Qed.

(** [str(n)] is made of digits and a sign. *)
Lemma contains_string_of_uint (c : ascii) (d : uint) :
  contains c "0123456789" = false ->
  contains c (NilEmpty.string_of_uint d) = false.
Proof.
  intros H. cbn [contains] in H.
  repeat (apply orb_false_elim in H; destruct H as [? H]).
  induction d; cbn [contains NilEmpty.string_of_uint]; try reflexivity;
    rewrite IHd, orb_false_r; assumption.
Qed.

Lemma contains_py_str (c : ascii) (n : Z) :
  contains c "-0123456789" = false -> contains c (py_str n) = false.
Proof.
  intros H. cbn [contains] in H. apply orb_false_elim in H.
  destruct H as [Hm H].
  assert (U : forall d, contains c (NilZero.string_of_uint d) = false).
  { intros d. pose proof (contains_string_of_uint c d H) as Hd.
    destruct d; try exact Hd.
    cbn [contains NilZero.string_of_uint].
    apply orb_false_elim in H. destruct H as [H0 _].
    now rewrite H0. }
  unfold py_str.
  destruct (Z.to_int n); cbn [contains NilZero.string_of_int]; [apply U |].
  now rewrite U, Hm.
Qed.

Lemma py_str_no_pipe (n : Z) : contains "|" (py_str n) = false.
Proof. now apply contains_py_str. Qed.

(* ------------------------------------------------------------------ *)
(** ** The reference implementation meets the contracts of the library *)

Module ReferenceFacts.
Import Reference.

(** Known answers: FIPS 180 and RFC 2202 vectors, RFC 4648 vectors. *)
Example sha1_abc :
  hex_of_bytes (sha1 (bytes_of_string "abc"))
  = "a9993e364706816aba3e25717850c26c9cd0d89d".
Proof. vm_compute. reflexivity. Qed.

Example sha1_two_blocks :
  hex_of_bytes (sha1 (bytes_of_string
    "abcdbcdecdefdefgefghfghighijhijkijkljklmklmnlmnomnopnopq"))
  = "84983e441c3bd26ebaae4aa1f95129e5e54670f1".
Proof. vm_compute. reflexivity. Qed.

Example hmac_rfc2202_2 :
  hexdigest "Jefe" "what do ya want for nothing?"
  = "effcdf6ae5eb2fa2d27416d5f184df9c259a7c79".
Proof. vm_compute. reflexivity. Qed.

Example base64_rfc4648 :
  (encode "", encode "f", encode "fo", encode "foo", encode "foob",
   encode "fooba", encode "foobar")
  = ("", "Zg==", "Zm8=", "Zm9v", "Zm9vYg==", "Zm9vYmE=", "Zm9vYmFy").
Proof. vm_compute. reflexivity. Qed.

(** A character outside [l]. *)
Definition outside (c : ascii) (l : list ascii) : bool :=
  forallb (fun x => negb (Ascii.eqb x c)) l.

Lemma outside_In (c x : ascii) (l : list ascii) :
  outside c l = true -> In x l -> Ascii.eqb x c = false.
Proof.
  unfold outside. rewrite forallb_forall. intros H Hx.
  apply negb_true_iff. now apply H.
Qed.

Lemma hexdigit_In (n : Z) : In (hexdigit n) hex_alphabet.
Proof.
  unfold hexdigit. apply nth_In.
  change (List.length hex_alphabet) with 16%nat.
  pose proof (Z.mod_pos_bound n 16 eq_refl). lia.
Qed.

Lemma hex_of_bytes_outside (c : ascii) (l : list Z) :
  outside c hex_alphabet = true -> contains c (hex_of_bytes l) = false.
Proof.
  intros H. induction l as [|b r IH]; cbn [hex_of_bytes contains].
  - reflexivity.
  - now rewrite !(outside_In c _ _ H (hexdigit_In _)), IH.
Qed.

Lemma hexdigest_no_pipe (key msg : string) :
  contains "|" (hexdigest key msg) = false.
Proof. now apply hex_of_bytes_outside. Qed.

Lemma hexdigest_no_colon (key msg : string) :
  contains ":" (hexdigest key msg) = false.
Proof. now apply hex_of_bytes_outside. Qed.

Lemma b64char_In (n : Z) : In (b64char n) b64_alphabet.
Proof.
  unfold b64char. apply nth_In.
  change (List.length b64_alphabet) with 64%nat.
  pose proof (Z.mod_pos_bound n 64 eq_refl). lia.
Qed.

(** Three bytes at a time. *)
Lemma string_ind3 (Q : string -> Prop) :
  Q "" ->
  (forall a, Q (String a "")) ->
  (forall a b, Q (String a (String b ""))) ->
  (forall a b c r, Q r -> Q (String a (String b (String c r)))) ->
  forall s, Q s.
Proof.
  intros H0 H1 H2 H3 s.
  assert (A : Q s /\ (forall a, Q (String a s))
              /\ (forall a b, Q (String a (String b s)))).
  { induction s as [|x s (IH0 & IH1 & IH2)]; repeat split; auto. }
  apply A.
Qed.

Lemma encode_outside (c : ascii) (s : string) :
  outside c ("="%char :: b64_alphabet) = true ->
  contains c (encode s) = false.
Proof.
  intros H. cbn [outside forallb] in H. apply andb_true_iff in H.
  destruct H as [He H]. apply negb_true_iff in He.
  induction s as [| a | a b | a b x r IH] using string_ind3;
    cbn [encode contains];
    rewrite ?(outside_In c _ _ H (b64char_In _)), ?He, ?IH; reflexivity.
Qed.

Lemma encode_no_pipe (s : string) : contains "|" (encode s) = false.
Proof. now apply encode_outside. Qed.

Lemma encode_no_colon (s : string) : contains ":" (encode s) = false.
Proof. now apply encode_outside. Qed.

Lemma b64val_b64char (n : Z) :
  0 <= n < 64 -> b64val (b64char n) = Some n.
Proof.
  intros Hn.
  assert (A : forallb (fun i => match b64val (b64char (Z.of_nat i)) with
                                | Some v => v =? Z.of_nat i
                                | None => false
                                end) (seq 0 64) = true)
    by (vm_compute; reflexivity).
  rewrite forallb_forall in A.
  specialize (A (Z.to_nat n)).
  rewrite Z2Nat.id in A by lia.
  assert (I : In (Z.to_nat n) (seq 0 64)) by (apply in_seq; lia).
  specialize (A I).
  destruct (b64val (b64char n)) as [v|]; [| discriminate].
  apply Z.eqb_eq in A. now subst.
Qed.

Lemma b64val_pad : b64val "=" = None.
Proof. vm_compute. reflexivity. Qed.

Lemma byte_range (a : ascii) : 0 <= byte a < 256.
Proof.
  unfold byte. pose proof (N_ascii_bounded a). lia.
Qed.

Lemma chr_byte (a : ascii) : chr (byte a) = a.
Proof.
  unfold chr. rewrite Z.mod_small by apply byte_range.
  unfold byte. now rewrite N2Z.id, ascii_N_embedding.
Qed.

Ltac divmod := Z.div_mod_to_equations; lia.

Lemma decode_encode (s : string) : decode (encode s) = Return s.
Proof.
  induction s as [| a | a b | a b c r IH] using string_ind3.
  - reflexivity.
  - pose proof (byte_range a) as Ha.
    cbn [encode decode].
    rewrite !b64val_b64char by divmod.
    rewrite b64val_pad. cbv beta iota zeta.
    rewrite Ascii.eqb_refl. cbn [andb].
    replace (byte a / 4 * 4 + byte a mod 4 * 16 / 16) with (byte a) by divmod.
    now rewrite chr_byte.
  - pose proof (byte_range a) as Ha. pose proof (byte_range b) as Hb.
    cbn [encode decode].
    rewrite !b64val_b64char by divmod.
    rewrite b64val_pad. cbv beta iota zeta.
    rewrite Ascii.eqb_refl.
    replace (byte a / 4 * 4 + (byte a mod 4 * 16 + byte b / 16) / 16)
      with (byte a) by divmod.
    replace ((byte a mod 4 * 16 + byte b / 16) mod 16 * 16
             + byte b mod 16 * 4 / 4) with (byte b) by divmod.
    now rewrite !chr_byte.
  - pose proof (byte_range a) as Ha. pose proof (byte_range b) as Hb.
    pose proof (byte_range c) as Hc.
    cbn [encode decode].
    rewrite !b64val_b64char by divmod.
    cbv beta iota zeta. rewrite IH. cbn [bind].
    replace (byte a / 4 * 4 + (byte a mod 4 * 16 + byte b / 16) / 16)
      with (byte a) by divmod.
    replace ((byte a mod 4 * 16 + byte b / 16) mod 16 * 16
             + (byte b mod 16 * 4 + byte c / 64) / 4) with (byte b) by divmod.
    replace ((byte b mod 16 * 4 + byte c / 64) mod 4 * 64 + byte c mod 64)
      with (byte c) by divmod.
    now rewrite !chr_byte.
Qed.

Lemma int_of_string_py_str (n : Z) : int_of_string (py_str n) = Return n.
Proof.
  unfold int_of_string, py_str.
  rewrite NilZero.isi.
  - now rewrite DecimalZ.of_to.
  - destruct n; cbn [Z.to_int]; try discriminate.
    intros [= E]. now apply (DecimalPos.Unsigned.to_uint_nonnil p).
  - destruct n; cbn [Z.to_int]; try discriminate.
    intros [= E]. now apply (DecimalPos.Unsigned.to_uint_nonnil p).
Qed.

End ReferenceFacts.

(* ------------------------------------------------------------------ *)
(** ** What the module relies on from the library *)

Class Lawful (P : Primitives) : Prop := {
  (** decoding undoes encoding *)
  b64_roundtrip : forall s, b64decode (b64encode s) = Return s;
  (** the base64 alphabet has neither delimiter *)
  b64_no_pipe : forall s, contains "|" (b64encode s) = false;
  b64_no_colon : forall s, contains ":" (b64encode s) = false;
  (** a hexadecimal digest has neither delimiter *)
  hex_no_pipe : forall k m, contains "|" (hmac_sha1_hexdigest k m) = false;
  hex_no_colon : forall k m, contains ":" (hmac_sha1_hexdigest k m) = false;
  (** [int] reads back what [str] prints *)
  int_str : forall n, py_int (py_str n) = Return n
}.

#[global] Instance reference_lawful : Lawful Reference.primitives.
Proof.
  split; cbn [b64decode b64encode hmac_sha1_hexdigest py_int
              Reference.primitives].
  - exact ReferenceFacts.decode_encode.
  - exact ReferenceFacts.encode_no_pipe.
  - exact ReferenceFacts.encode_no_colon.
  - exact ReferenceFacts.hexdigest_no_pipe.
  - exact ReferenceFacts.hexdigest_no_colon.
  - exact ReferenceFacts.int_of_string_py_str.
Qed.

(* ------------------------------------------------------------------ *)
(** ** Ways a signed value and a compound token fail *)

Section Failures.

Context {P : Primitives}.

(** The signature comparison of [_parse_vals]: the keyed digest of the
    recomputed signature against the keyed digest of the given one. *)
Definition sig_matches (key u_prefix u_b64 u_sig : string) : bool :=
  String.eqb
    (_hmac_sha1 key (_hmac_sha1 key (u_prefix ++ "|" ++ u_b64)))
    (_hmac_sha1 key u_sig).

Inductive parse_failure (key val prefix : string) (ts : Z) : Prop :=
| malformed_value :
    List.length (split "|" val) <> 3%nat ->
    parse_failure key val prefix ts
| signature_mismatch u_prefix u_b64 u_sig :
    split "|" val = [u_prefix; u_b64; u_sig] ->
    sig_matches key u_prefix u_b64 u_sig = false ->
    parse_failure key val prefix ts
| prefix_mismatch u_prefix u_b64 u_sig :
    split "|" val = [u_prefix; u_b64; u_sig] ->
    u_prefix <> prefix ->
    parse_failure key val prefix ts
| undecodable_payload u_prefix u_b64 u_sig e :
    split "|" val = [u_prefix; u_b64; u_sig] ->
    b64decode u_b64 = Raise e ->
    parse_failure key val prefix ts
| malformed_payload u_prefix u_b64 u_sig decoded :
    split "|" val = [u_prefix; u_b64; u_sig] ->
    b64decode u_b64 = Return decoded ->
    List.length (split "|" decoded) <> 3%nat ->
    parse_failure key val prefix ts
| non_integer_expiration u_prefix u_b64 u_sig decoded user ikey exp e :
    split "|" val = [u_prefix; u_b64; u_sig] ->
    b64decode u_b64 = Return decoded ->
    split "|" decoded = [user; ikey; exp] ->
    py_int exp = Raise e ->
    parse_failure key val prefix ts
| expired u_prefix u_b64 u_sig decoded user ikey exp exp_i :
    split "|" val = [u_prefix; u_b64; u_sig] ->
    b64decode u_b64 = Return decoded ->
    split "|" decoded = [user; ikey; exp] ->
    py_int exp = Return exp_i ->
    ts >= exp_i ->
    parse_failure key val prefix ts.

Inductive verify_failure (skey akey prefix sig_response : string)
    (ts_duo ts_app : Z) : Prop :=
| malformed_token :
    List.length (split ":" sig_response) <> 2%nat ->
    verify_failure skey akey prefix sig_response ts_duo ts_app
| duo_half_fails sig app_sig :
    split ":" sig_response = [sig; app_sig] ->
    parse_failure skey sig prefix ts_duo ->
    verify_failure skey akey prefix sig_response ts_duo ts_app
| app_half_fails sig app_sig :
    split ":" sig_response = [sig; app_sig] ->
    parse_failure akey app_sig APP_PREFIX ts_app ->
    verify_failure skey akey prefix sig_response ts_duo ts_app
| username_mismatch sig app_sig user app_user :
    split ":" sig_response = [sig; app_sig] ->
    _parse_vals skey sig prefix ts_duo = Return (Some user) ->
    _parse_vals akey app_sig APP_PREFIX ts_app = Return (Some app_user) ->
    user <> app_user ->
    verify_failure skey akey prefix sig_response ts_duo ts_app.

End Failures.

(* ------------------------------------------------------------------ *)
(** ** Parsing and verification, step by step *)

Section Steps.

Context {P : Primitives}.

(** [_parse_vals] on a value with three fields. *)
Lemma _parse_vals_fields (key val prefix : string) (ts : Z)
    (u_prefix u_b64 u_sig : string) :
  split "|" val = [u_prefix; u_b64; u_sig] ->
  _parse_vals key val prefix ts =
    if negb (sig_matches key u_prefix u_b64 u_sig) then Return None
    else if negb (String.eqb u_prefix prefix) then Return None
    else
      decoded <- b64decode u_b64 ;;
      '(user, ikey, exp) <- unpack3 (split "|" decoded) ;;
      exp_i <- py_int exp ;;
      if ts >=? exp_i then Return None else Return (Some user).
Proof.
  intros E. unfold _parse_vals. rewrite E. reflexivity.
Qed.

(** A successful parse went through every check. *)
Lemma _parse_vals_Some_inv (key val prefix : string) (ts : Z) (u : string) :
  _parse_vals key val prefix ts = Return (Some u) ->
  exists u_b64 u_sig ikey exp exp_i,
    split "|" val = [prefix; u_b64; u_sig]
    /\ sig_matches key prefix u_b64 u_sig = true
    /\ (exists decoded, b64decode u_b64 = Return decoded
                        /\ split "|" decoded = [u; ikey; exp])
    /\ py_int exp = Return exp_i
    /\ ts < exp_i.
Proof.
  unfold _parse_vals.
  destruct (unpack3 (split "|" val)) as [[[p b] s]|e] eqn:U;
    cbn [bind]; [| discriminate].
  apply unpack3_inv in U.
  fold (sig_matches key p b s).
  destruct (sig_matches key p b s) eqn:S; cbn [negb]; [| discriminate].
  destruct (String.eqb_spec p prefix) as [->|]; cbn [negb]; [| discriminate].
  destruct (b64decode b) as [d|] eqn:D; cbn [bind]; [| discriminate].
  destruct (unpack3 (split "|" d)) as [[[user ikey] exp]|e] eqn:U2;
    cbn [bind]; [| discriminate].
  apply unpack3_inv in U2.
  destruct (py_int exp) as [exp_i|] eqn:I; cbn [bind]; [| discriminate].
  destruct (Z.geb_spec ts exp_i); [discriminate |].
  intros [= ->].
  exists b, s, ikey, exp, exp_i. repeat split; eauto.
Qed.

(** A failing parse returns [None] or raises; it never yields a user. *)
Lemma parse_failure_no_user (key val prefix : string) (ts : Z) (u : string) :
  parse_failure key val prefix ts ->
  _parse_vals key val prefix ts <> Return (Some u).
Proof.
  intros F H.
  apply _parse_vals_Some_inv in H.
  destruct H as (b & s & ikey & exp & exp_i & E & S & (d & D & E2) & I & T).
  destruct F as [L | p b' s' E' S' | p b' s' E' N | p b' s' e E' D'
                 | p b' s' d' E' D' L | p b' s' d' u' i' x' e E' D' E2' I'
                 | p b' s' d' u' i' x' e' E' D' E2' I' T'].
  - rewrite E in L. now apply L.
  - rewrite E in E'. injection E' as <- <- <-. congruence.
  - rewrite E in E'. injection E' as <- <- <-. congruence.
  - rewrite E in E'. injection E' as <- <- <-. congruence.
  - rewrite E in E'. injection E' as <- <- <-.
    rewrite D in D'. injection D' as <-. rewrite E2 in L. now apply L.
  - rewrite E in E'. injection E' as <- <- <-.
    rewrite D in D'. injection D' as <-.
    rewrite E2 in E2'. injection E2' as <- <- <-. congruence.
  - rewrite E in E'. injection E' as <- <- <-.
    rewrite D in D'. injection D' as <-.
    rewrite E2 in E2'. injection E2' as <- <- <-.
    rewrite I in I'. injection I' as <-. lia.
Qed.

(** The failure modes are all there are. *)
Lemma _parse_vals_user_or_failure (key val prefix : string) (ts : Z) :
  (exists u, _parse_vals key val prefix ts = Return (Some u))
  \/ parse_failure key val prefix ts.
Proof.
  destruct (split "|" val) as [|p [|b [|s [|x r]]]] eqn:E;
    try (right; apply malformed_value; rewrite E; simpl; lia).
  rewrite (_parse_vals_fields _ _ _ _ _ _ _ E).
  destruct (sig_matches key p b s) eqn:S; cbn [negb];
    [| right; eapply signature_mismatch; eauto].
  destruct (String.eqb_spec p prefix) as [->|N]; cbn [negb];
    [| right; eapply prefix_mismatch; eauto].
  destruct (b64decode b) as [d|e] eqn:D; cbn [bind];
    [| right; eapply undecodable_payload; eauto].
  destruct (split "|" d) as [|u [|i [|x [|y r]]]] eqn:E2;
    try (right; eapply malformed_payload; eauto; rewrite E2; simpl; lia).
  cbn [unpack3 bind].
  destruct (py_int x) as [exp_i|e] eqn:I; cbn [bind];
    [| right; eapply non_integer_expiration; eauto].
  destruct (Z.geb_spec ts exp_i) as [G|G].
  - right. eapply expired; eauto. lia.
  - left. now exists u.
Qed.

(** Every run of [_verify_response] returns [None], or returns the user
    that both halves carry. *)
Lemma _verify_response_cases (ikey skey akey prefix sig_response : string)
    (ts_duo ts_app : Z) :
  _verify_response ikey skey akey prefix sig_response ts_duo ts_app
    = Return None
  \/ exists sig app_sig u,
       split ":" sig_response = [sig; app_sig]
       /\ _parse_vals skey sig prefix ts_duo = Return (Some u)
       /\ _parse_vals akey app_sig APP_PREFIX ts_app = Return (Some u)
       /\ _verify_response ikey skey akey prefix sig_response ts_duo ts_app
          = Return (Some u).
Proof.
  unfold _verify_response.
  destruct (unpack2 (split ":" sig_response)) as [[sig app_sig]|e] eqn:U;
    cbn [bind]; [| now left].
  apply unpack2_inv in U.
  destruct (_parse_vals skey sig prefix ts_duo) as [user|e] eqn:P1;
    cbn [bind]; [| now left].
  destruct (_parse_vals akey app_sig APP_PREFIX ts_app) as [app_user|e] eqn:P2;
    cbn [bind]; [| now left].
  destruct user as [u|], app_user as [v|]; cbn [py_ne]; try now left.
  destruct (String.eqb_spec u v) as [->|]; cbn [negb]; [| now left].
  right. exists sig, app_sig, v. auto.
Qed.

Lemma _verify_response_returns (ikey skey akey prefix sig_response : string)
    (ts_duo ts_app : Z) :
  exists r,
    _verify_response ikey skey akey prefix sig_response ts_duo ts_app
    = Return r.
Proof.
  destruct (_verify_response_cases ikey skey akey prefix sig_response
              ts_duo ts_app) as [H | (s & a & u & _ & _ & _ & H)];
    rewrite H; eauto.
Qed.

Lemma _verify_response_failure (ikey skey akey prefix sig_response : string)
    (ts_duo ts_app : Z) :
  verify_failure skey akey prefix sig_response ts_duo ts_app ->
  _verify_response ikey skey akey prefix sig_response ts_duo ts_app
  = Return None.
Proof.
  intros F.
  destruct (_verify_response_cases ikey skey akey prefix sig_response
              ts_duo ts_app) as [H | (s & a & u & E & P1 & P2 & H)];
    [exact H | exfalso].
  destruct F as [L | s' a' E' F | s' a' E' F | s' a' u1 u2 E' Q1 Q2 N].
  - rewrite E in L. now apply L.
  - rewrite E in E'. injection E' as <- <-.
    exact (parse_failure_no_user _ _ _ _ _ F P1).
  - rewrite E in E'. injection E' as <- <-.
    exact (parse_failure_no_user _ _ _ _ _ F P2).
  - rewrite E in E'. injection E' as <- <-. congruence.
Qed.

Lemma _verify_response_success (ikey skey akey prefix sig_response : string)
    (ts_duo ts_app : Z) (sig app_sig u : string) :
  split ":" sig_response = [sig; app_sig] ->
  _parse_vals skey sig prefix ts_duo = Return (Some u) ->
  _parse_vals akey app_sig APP_PREFIX ts_app = Return (Some u) ->
  _verify_response ikey skey akey prefix sig_response ts_duo ts_app
  = Return (Some u).
Proof.
  intros E P1 P2. unfold _verify_response.
  rewrite E. cbn [unpack2 bind]. rewrite P1. cbn [bind]. rewrite P2.
  cbn [bind py_ne]. now rewrite String.eqb_refl.
Qed.

(** When the first half yields no user, neither does the token. *)
Lemma _verify_response_duo_no_user
    (ikey skey akey prefix sig_response : string) (ts_duo ts_app : Z) :
  (forall sig app_sig u,
      split ":" sig_response = [sig; app_sig] ->
      _parse_vals skey sig prefix ts_duo <> Return (Some u)) ->
  _verify_response ikey skey akey prefix sig_response ts_duo ts_app
  = Return None.
Proof.
  intros H.
  destruct (_verify_response_cases ikey skey akey prefix sig_response
              ts_duo ts_app) as [R | (s & a & u & E & P1 & _)];
    [exact R |].
  now destruct (H s a u E).
Qed.

End Steps.

(* ------------------------------------------------------------------ *)
(** ** The wire format *)

Section Wire.

Context {P : Primitives}.

(** [BASE64(username|ikey|expiration)]. *)
Definition payload (username ikey : string) (expiration : Z) : string :=
  b64encode (username ++ "|" ++ ikey ++ "|" ++ py_str expiration).

(** [PREFIX|BASE64(username|ikey|expiration)|HEXHMAC], the digest taken
    over [PREFIX|BASE64(..)] under [key]. *)
Definition signed_value (prefix key username ikey : string)
    (expiration : Z) : string :=
  prefix ++ "|" ++ payload username ikey expiration ++ "|"
  ++ hmac_sha1_hexdigest key (prefix ++ "|" ++ payload username ikey expiration).

(** A signed value whose signature field is replaced by [u_sig]. *)
Definition resigned_value (prefix username ikey : string) (expiration : Z)
    (u_sig : string) : string :=
  prefix ++ "|" ++ payload username ikey expiration ++ "|" ++ u_sig.

Lemma _sign_vals_wire (key username ikey prefix : string) (expire now : Z) :
  _sign_vals key [username; ikey] prefix expire now
  = signed_value prefix key username ikey (now + expire).
Proof.
  unfold _sign_vals, signed_value, payload, _hmac_sha1.
  cbn [List.app join]. now rewrite app_assoc_str.
Qed.

Lemma signed_value_resigned (prefix key username ikey : string) (e : Z) :
  signed_value prefix key username ikey e
  = resigned_value prefix username ikey e
      (hmac_sha1_hexdigest key (prefix ++ "|" ++ payload username ikey e)).
Proof. reflexivity. Qed.

Context {L : Lawful P}.

Lemma payload_no_pipe (u i : string) (e : Z) :
  contains "|" (payload u i e) = false.
Proof. apply b64_no_pipe. Qed.

Lemma payload_no_colon (u i : string) (e : Z) :
  contains ":" (payload u i e) = false.
Proof. apply b64_no_colon. Qed.

Lemma split_resigned_value (prefix u i : string) (e : Z) (u_sig : string) :
  contains "|" prefix = false -> contains "|" u_sig = false ->
  split "|" (resigned_value prefix u i e u_sig)
  = [prefix; payload u i e; u_sig].
Proof.
  intros Hp Hs. unfold resigned_value. cbn [append].
  apply split3; auto using payload_no_pipe.
Qed.

Lemma split_signed_value (prefix key u i : string) (e : Z) :
  contains "|" prefix = false ->
  split "|" (signed_value prefix key u i e)
  = [prefix; payload u i e;
     hmac_sha1_hexdigest key (prefix ++ "|" ++ payload u i e)].
Proof.
  intros Hp. rewrite signed_value_resigned.
  apply split_resigned_value; auto using hex_no_pipe.
Qed.


Lemma resigned_value_no_colon (prefix u i : string) (e : Z) (u_sig : string) :
  contains ":" prefix = false -> contains ":" u_sig = false ->
  contains ":" (resigned_value prefix u i e u_sig) = false.
Proof.
  intros Hp Hs. unfold resigned_value.
  rewrite !contains_app, Hp, Hs, payload_no_colon. reflexivity.
Qed.

Lemma signed_value_no_colon (prefix key u i : string) (e : Z) :
  contains ":" prefix = false ->
  contains ":" (signed_value prefix key u i e) = false.
Proof.
  intros Hp. rewrite signed_value_resigned.
  apply resigned_value_no_colon; auto using hex_no_colon.
Qed.

Lemma split_payload (u i : string) (e : Z) :
  contains "|" u = false -> contains "|" i = false ->
  split "|" (u ++ "|" ++ i ++ "|" ++ py_str e) = [u; i; py_str e].
Proof.
  intros Hu Hi. cbn [append]. apply split3; auto using py_str_no_pipe.
Qed.

(** Parsing a value that carries its genuine payload and any signature whose
    keyed digest equals that of the genuine one. *)
Lemma _parse_vals_resigned (key prefix u i : string) (e ts : Z)
    (u_sig : string) :
  contains "|" prefix = false ->
  contains "|" u = false -> contains "|" i = false ->
  contains "|" u_sig = false ->
  _hmac_sha1 key u_sig
  = _hmac_sha1 key (_hmac_sha1 key (prefix ++ "|" ++ payload u i e)) ->
  _parse_vals key (resigned_value prefix u i e u_sig) prefix ts
  = Return (if ts >=? e then None else Some u).
Proof.
  intros Hp Hu Hi Hs Hd.
  rewrite (_parse_vals_fields _ _ _ _ _ _ _
             (split_resigned_value prefix u i e u_sig Hp Hs)).
  unfold sig_matches. rewrite Hd, !String.eqb_refl. cbn [negb].
  unfold payload at 1. rewrite b64_roundtrip. cbn [bind].
  rewrite split_payload by assumption. cbn [unpack3 bind].
  rewrite int_str. cbn [bind].
  now destruct (ts >=? e).
Qed.

(** Parsing what was signed under the same key and prefix. *)
Lemma _parse_vals_signed (key prefix u i : string) (e ts : Z) :
  contains "|" prefix = false ->
  contains "|" u = false -> contains "|" i = false ->
  _parse_vals key (signed_value prefix key u i e) prefix ts
  = Return (if ts >=? e then None else Some u).
Proof.
  intros Hp Hu Hi. rewrite signed_value_resigned.
  apply _parse_vals_resigned; auto using hex_no_pipe.
Qed.

(** Parsing what was signed under the same key and another prefix. *)
Lemma _parse_vals_signed_other (key prefix prefix' u i : string) (e ts : Z) :
  contains "|" prefix = false -> prefix <> prefix' ->
  _parse_vals key (signed_value prefix key u i e) prefix' ts = Return None.
Proof.
  intros Hp N.
  rewrite (_parse_vals_fields _ _ _ _ _ _ _
             (split_signed_value prefix key u i e Hp)).
  unfold sig_matches. rewrite String.eqb_refl. cbn [negb].
  destruct (String.eqb_spec prefix prefix'); [contradiction | reflexivity].
Qed.

(** A compound token of two signed values splits into its halves. *)
Lemma split_token (a b : string) :
  contains ":" a = false -> contains ":" b = false ->
  split ":" (a ++ ":" ++ b) = [a; b].
Proof.
  intros Ha Hb. cbn [append]. now apply split2.
Qed.

End Wire.

(* ------------------------------------------------------------------ *)
(** ** Signing *)

Section Signing.

Context {P : Primitives}.

Lemma py_not_length (s : string) (n : nat) :
  String.length s = S n -> py_not s = false.
Proof. destruct s; [discriminate | reflexivity]. Qed.

Lemma py_not_false (s : string) : s <> "" -> py_not s = false.
Proof. destruct s; [contradiction | reflexivity]. Qed.

(** With every argument valid the result is the compound token. *)
Lemma _sign_request_valid (ikey skey akey username prefix : string)
    (t_duo t_app : Z) :
  username <> "" ->
  String.length ikey = IKEY_LEN ->
  String.length skey = SKEY_LEN ->
  (AKEY_LEN <= String.length akey)%nat ->
  _sign_request ikey skey akey username prefix t_duo t_app
  = Return (signed_value prefix skey username ikey (t_duo + DUO_EXPIRE)
            ++ ":"
            ++ signed_value APP_PREFIX akey username ikey (t_app + APP_EXPIRE)).
Proof.
  intros Hu Hi Hs Ha. unfold _sign_request.
  rewrite (py_not_false _ Hu).
  rewrite (py_not_length ikey 19 Hi), Hi, Nat.eqb_refl.
  rewrite (py_not_length skey 39 Hs), Hs, Nat.eqb_refl.
  cbn [orb negb].
  assert (Hn : py_not akey = false).
  { destruct akey; [simpl in Ha; unfold AKEY_LEN in Ha; lia | reflexivity]. }
  rewrite Hn. cbn [orb].
  destruct (Nat.ltb_spec (String.length akey) AKEY_LEN); [lia |].
  cbn [bind]. now rewrite !_sign_vals_wire.
Qed.

(** Every result of [_sign_request] starts with a field that is [ERR] or
    the request prefix. *)
Lemma _sign_request_head (ikey skey akey username prefix : string)
    (t_duo t_app : Z) :
  exists p rest,
    _sign_request ikey skey akey username prefix t_duo t_app
    = Return (p ++ "|" ++ rest)
    /\ (p = "ERR" \/ p = prefix).
Proof.
  unfold _sign_request.
  destruct (py_not username);
    [exists "ERR"; eexists; split; [reflexivity | now left] |].
  destruct (py_not ikey || negb (String.length ikey =? IKEY_LEN)%nat);
    [exists "ERR"; eexists; split; [reflexivity | now left] |].
  destruct (py_not skey || negb (String.length skey =? SKEY_LEN)%nat);
    [exists "ERR"; eexists; split; [reflexivity | now left] |].
  destruct (py_not akey || (String.length akey <? AKEY_LEN)%nat);
    [exists "ERR"; eexists; split; [reflexivity | now left] |].
  cbn [bind]. rewrite !_sign_vals_wire. unfold signed_value at 1.
  exists prefix. eexists. split; [| now right].
  rewrite !app_assoc_str. reflexivity.
Qed.

(** A string whose first field is not the expected prefix does not verify. *)
Lemma _verify_response_head (ikey skey akey prefix p rest : string)
    (ts_duo ts_app : Z) :
  contains ":" p = false -> contains "|" p = false -> p <> prefix ->
  _verify_response ikey skey akey prefix (p ++ "|" ++ rest) ts_duo ts_app
  = Return None.
Proof.
  intros Hc Hp N. apply _verify_response_duo_no_user.
  intros sig app_sig u E Q.
  assert (Hc' : contains ":" (p ++ "|") = false)
    by (rewrite contains_app, Hc; reflexivity).
  destruct (split_head ":" (p ++ "|") rest Hc') as (w & ws & S).
  rewrite app_assoc_str in S. rewrite S in E. injection E as <- _.
  apply _parse_vals_Some_inv in Q.
  destruct Q as (b & s & _ & _ & _ & E & _).
  rewrite app_assoc_str in E. cbn [append] in E.
  rewrite split_app_sep in E by assumption.
  injection E as E _. contradiction.
Qed.

End Signing.

(* ------------------------------------------------------------------ *)
(** ** Requests, responses and the sample scenario *)

(** The inputs a caller may pass to the signing functions. *)
Definition valid_inputs (ikey skey akey username : string) : Prop :=
  username <> ""
  /\ String.length ikey = IKEY_LEN
  /\ String.length skey = SKEY_LEN
  /\ (AKEY_LEN <= String.length akey)%nat.

(** The compound token that answers a request: the first half signed under
    the secret key with the response prefix, the second half signed under
    the application key as [_sign_request] signs it. *)
Definition response {P : Primitives} (prefix skey akey username ikey : string)
    (t_duo t_app : Z) : string :=
  _sign_vals skey [username; ikey] prefix DUO_EXPIRE t_duo
  ++ ":" ++ _sign_vals akey [username; ikey] APP_PREFIX APP_EXPIRE t_app.

Module Sample.

Definition ikey : string := "IIIIIIIIIIIIIIIIIIII".
Definition skey : string := "SSSSSSSSSSSSSSSSSSSSSSSSSSSSSSSSSSSSSSSS".
Definition akey : string := "AAAAAAAAAAAAAAAAAAAAAAAAAAAAAAAAAAAAAAAA".
Definition username : string := "jsmith".
Definition now : Z := 1700000000.

Lemma valid : valid_inputs ikey skey akey username.
Proof. repeat split; [discriminate | apply Nat.le_refl]. Qed.

End Sample.

(* ------------------------------------------------------------------ *)
(** ** Round trip *)

Section RoundTrip.

Context {P : Primitives} {L : Lawful P}.

Lemma split_response (prefix skey akey u i : string) (t_duo t_app : Z) :
  contains ":" prefix = false ->
  split ":" (response prefix skey akey u i t_duo t_app)
  = [_sign_vals skey [u; i] prefix DUO_EXPIRE t_duo;
     _sign_vals akey [u; i] APP_PREFIX APP_EXPIRE t_app].
Proof.
  intros Hp. unfold response. apply split_token; rewrite _sign_vals_wire.
  - now apply signed_value_no_colon.
  - now apply signed_value_no_colon.
Qed.

(** A response verifies as long as neither half has expired. *)
Lemma _verify_response_response (ikey' prefix skey akey u i : string)
    (t_duo t_app ts_duo ts_app : Z) :
  contains ":" prefix = false -> contains "|" prefix = false ->
  contains "|" u = false -> contains "|" i = false ->
  ts_duo < t_duo + DUO_EXPIRE -> ts_app < t_app + APP_EXPIRE ->
  _verify_response ikey' skey akey prefix
    (response prefix skey akey u i t_duo t_app) ts_duo ts_app
  = Return (Some u).
Proof.
  intros Hc Hp Hu Hi T1 T2.
  eapply _verify_response_success.
  - now apply split_response.
  - rewrite _sign_vals_wire, _parse_vals_signed by assumption.
    destruct (Z.geb_spec ts_duo (t_duo + DUO_EXPIRE)); [lia | reflexivity].
  - rewrite _sign_vals_wire, _parse_vals_signed by (assumption || reflexivity).
    destruct (Z.geb_spec ts_app (t_app + APP_EXPIRE)); [lia | reflexivity].
Qed.

(** C1 (as amended).  [sign_request] tags the half signed under the secret
    key with [TX], while [verify_response] expects [AUTH]: applied to the
    output of [sign_request], at any clock time, [verify_response] returns
    [None].  The round trip holds for the response to a request: for a
    username and an integration key without ["|"], the token whose first
    half is signed under the secret key with prefix [AUTH] and whose second
    half is the application half of the request verifies, at the clock time
    of signing, to exactly that username. *)
Theorem sign_request_verify_response
    (ikey skey akey username : string) (now : Z) :
  valid_inputs ikey skey akey username ->
  (exists token,
      sign_request ikey skey akey username now now = Return token
      /\ forall ts_duo ts_app,
           verify_response ikey skey akey token ts_duo ts_app = Return None)
  /\ (contains "|" username = false -> contains "|" ikey = false ->
      verify_response ikey skey akey
        (response AUTH_PREFIX skey akey username ikey now now) now now
      = Return (Some username)).
Proof.
  intros (Hu & Hi & Hs & Ha). split.
  - unfold sign_request.
    rewrite (_sign_request_valid _ _ _ _ _ _ _ Hu Hi Hs Ha).
    eexists. split; [reflexivity |].
    intros ts_duo ts_app. unfold verify_response, signed_value at 1.
    rewrite !app_assoc_str.
    apply _verify_response_head; [reflexivity | reflexivity | discriminate].
  - intros Pu Pi. unfold verify_response.
    apply _verify_response_response; try assumption; try reflexivity.
    + unfold DUO_EXPIRE. lia.
    + unfold APP_EXPIRE. lia.
Qed.

End RoundTrip.

Lemma sign_request_verify_response_witness :
  (exists token,
      sign_request (P := Reference.primitives)
        Sample.ikey Sample.skey Sample.akey Sample.username
        Sample.now Sample.now = Return token
      /\ forall ts_duo ts_app,
           verify_response Sample.ikey Sample.skey Sample.akey token
             ts_duo ts_app = Return None)
  /\ verify_response (P := Reference.primitives)
       Sample.ikey Sample.skey Sample.akey
       (response AUTH_PREFIX Sample.skey Sample.akey Sample.username
          Sample.ikey Sample.now Sample.now) Sample.now Sample.now
     = Return (Some Sample.username).
Proof.
  destruct (sign_request_verify_response (L := reference_lawful)
              Sample.ikey Sample.skey Sample.akey Sample.username Sample.now
              Sample.valid) as [A B].
  split; [exact A | apply B; reflexivity].
Defined.

(** C1 (as stated) fails: with keys of the required lengths and the username
    [jsmith], [verify_response] at the clock time of signing returns [None]
    on the output of [sign_request], not the username. *)
Lemma sign_request_verify_response_counterexample :
  String.length Sample.ikey = 20%nat
  /\ String.length Sample.skey = 40%nat
  /\ (40 <= String.length Sample.akey)%nat
  /\ exists token,
       sign_request (P := Reference.primitives)
         Sample.ikey Sample.skey Sample.akey Sample.username
         Sample.now Sample.now = Return token
       /\ verify_response (P := Reference.primitives)
            Sample.ikey Sample.skey Sample.akey token Sample.now Sample.now
          = Return None
       /\ verify_response (P := Reference.primitives)
            Sample.ikey Sample.skey Sample.akey token Sample.now Sample.now
          <> Return (Some Sample.username).
Proof.
  repeat split; try apply Nat.le_refl.
  eexists. split; [vm_compute; reflexivity |].
  split; [vm_compute; reflexivity | vm_compute; discriminate].
Qed.

(* ------------------------------------------------------------------ *)
(** ** Verification never raises *)

Section Verification.

Context {P : Primitives}.

(** [None] is returned exactly on the failures listed by [verify_failure]. *)
Lemma _verify_response_None_iff (ikey skey akey prefix sig_response : string)
    (ts_duo ts_app : Z) :
  _verify_response ikey skey akey prefix sig_response ts_duo ts_app
  = Return None
  <-> verify_failure skey akey prefix sig_response ts_duo ts_app.
Proof.
  split; [| apply _verify_response_failure].
  destruct (split ":" sig_response) as [|sig [|app_sig [|x r]]] eqn:E;
    try (intros _; apply malformed_token; rewrite E; simpl; lia).
  destruct (_parse_vals_user_or_failure skey sig prefix ts_duo)
    as [(u & P1) | F]; [| intros _; eapply duo_half_fails; eauto].
  destruct (_parse_vals_user_or_failure akey app_sig APP_PREFIX ts_app)
    as [(v & P2) | F]; [| intros _; eapply app_half_fails; eauto].
  destruct (String.eqb_spec u v) as [->|N].
  - rewrite (_verify_response_success _ _ _ _ _ _ _ _ _ _ E P1 P2).
    discriminate.
  - intros _. eapply username_mismatch; eauto.
Qed.

(** C2.  [verify_response] and [verify_enroll_response] return on every
    input, whatever the response string and the clock: no exception leaves
    them.  A compound token that does not split into two parts at [":"], a
    half that does not split into three fields at ["|"], a signature
    mismatch, a prefix mismatch, a payload that does not decode, that has
    not three fields or whose expiration is no integer, an expired half,
    and two halves with different usernames all give the one result
    [None]; and [None] is returned on no other input. *)
Theorem verify_never_raises (ikey skey akey sig_response : string)
    (ts_duo ts_app : Z) :
  (exists r,
      verify_response ikey skey akey sig_response ts_duo ts_app = Return r)
  /\ (exists r,
         verify_enroll_response ikey skey akey sig_response ts_duo ts_app
         = Return r)
  /\ (verify_failure skey akey AUTH_PREFIX sig_response ts_duo ts_app ->
      verify_response ikey skey akey sig_response ts_duo ts_app
      = Return None)
  /\ (verify_failure skey akey ENROLL_PREFIX sig_response ts_duo ts_app ->
      verify_enroll_response ikey skey akey sig_response ts_duo ts_app
      = Return None)
  /\ (verify_response ikey skey akey sig_response ts_duo ts_app
      = Return None ->
      verify_failure skey akey AUTH_PREFIX sig_response ts_duo ts_app)
  /\ (verify_enroll_response ikey skey akey sig_response ts_duo ts_app
      = Return None ->
      verify_failure skey akey ENROLL_PREFIX sig_response ts_duo ts_app).
Proof.
  unfold verify_response, verify_enroll_response.
  repeat split;
    try apply _verify_response_returns;
    apply _verify_response_None_iff.
Qed.

End Verification.

(** One input for each of: a token without [":"], a half without ["|"], a
    forged signature, the wrong prefix, an expired half, two usernames. *)
Lemma verify_never_raises_witness :
  let verify := verify_response (P := Reference.primitives)
                  Sample.ikey Sample.skey Sample.akey in
  verify "" Sample.now Sample.now = Return None
  /\ verify "AUTH:APP" Sample.now Sample.now = Return None
  /\ verify "AUTH|anNtaXRo|00:APP|anNtaXRo|00" Sample.now Sample.now
     = Return None
  /\ verify (response ENROLL_PREFIX Sample.skey Sample.akey Sample.username
               Sample.ikey Sample.now Sample.now) Sample.now Sample.now
     = Return None
  /\ verify (response AUTH_PREFIX Sample.skey Sample.akey Sample.username
               Sample.ikey Sample.now Sample.now)
       (Sample.now + 300) (Sample.now + 300)
     = Return None
  /\ verify (_sign_vals Sample.skey ["alice"; Sample.ikey] AUTH_PREFIX
               DUO_EXPIRE Sample.now
             ++ ":"
             ++ _sign_vals Sample.akey ["bob"; Sample.ikey] APP_PREFIX
                  APP_EXPIRE Sample.now) Sample.now Sample.now
     = Return None.
Proof.
  cbv zeta.
  split; [| split; [| split; [| split; [| split]]]];
    match goal with
    | |- verify_response ?i ?s ?a ?r ?t1 ?t2 = _ =>
        apply (proj1 (proj2 (proj2 (verify_never_raises i s a r t1 t2))))
    end.
  - apply malformed_token. vm_compute. discriminate.
  - apply (duo_half_fails _ _ _ _ _ _ "AUTH" "APP"); [reflexivity |].
    apply malformed_value. vm_compute. discriminate.
  - apply (duo_half_fails _ _ _ _ _ _ "AUTH|anNtaXRo|00" "APP|anNtaXRo|00");
      [reflexivity |].
    apply (signature_mismatch _ _ _ _ "AUTH" "anNtaXRo" "00");
      [reflexivity | vm_compute; reflexivity].
  - eapply (duo_half_fails _ _ _ _ _ _
              (_sign_vals Sample.skey [Sample.username; Sample.ikey]
                 ENROLL_PREFIX DUO_EXPIRE Sample.now)
              (_sign_vals Sample.akey [Sample.username; Sample.ikey]
                 APP_PREFIX APP_EXPIRE Sample.now));
      [vm_compute; reflexivity |].
    apply (prefix_mismatch _ _ _ _ "ENROLL"
             (payload Sample.username Sample.ikey (Sample.now + 300))
             (hmac_sha1_hexdigest Sample.skey
                ("ENROLL|"
                 ++ payload Sample.username Sample.ikey (Sample.now + 300))));
      [vm_compute; reflexivity | discriminate].
  - eapply (duo_half_fails _ _ _ _ _ _
              (_sign_vals Sample.skey [Sample.username; Sample.ikey]
                 AUTH_PREFIX DUO_EXPIRE Sample.now)
              (_sign_vals Sample.akey [Sample.username; Sample.ikey]
                 APP_PREFIX APP_EXPIRE Sample.now));
      [vm_compute; reflexivity |].
    apply (expired _ _ _ _ "AUTH"
             (payload Sample.username Sample.ikey (Sample.now + 300))
             (hmac_sha1_hexdigest Sample.skey
                ("AUTH|"
                 ++ payload Sample.username Sample.ikey (Sample.now + 300)))
             "jsmith|IIIIIIIIIIIIIIIIIIII|1700000300"
             "jsmith" "IIIIIIIIIIIIIIIIIIII" "1700000300" 1700000300);
      try (vm_compute; reflexivity).
    vm_compute. discriminate.
  - apply (username_mismatch _ _ _ _ _ _
             (_sign_vals Sample.skey ["alice"; Sample.ikey] AUTH_PREFIX
                DUO_EXPIRE Sample.now)
             (_sign_vals Sample.akey ["bob"; Sample.ikey] APP_PREFIX
                APP_EXPIRE Sample.now) "alice" "bob");
      try (vm_compute; reflexivity).
    discriminate.
Defined.

(* ------------------------------------------------------------------ *)
(** ** Expiration, prefixes and usernames *)

Section Checks.

Context {P : Primitives} {L : Lawful P}.

(** A response whose first half yields no user does not verify. *)
Lemma _verify_response_response_duo_None
    (ikey' prefix prefix' skey akey u i : string)
    (t_duo t_app ts_duo ts_app : Z) :
  contains ":" prefix = false ->
  _parse_vals skey (_sign_vals skey [u; i] prefix DUO_EXPIRE t_duo)
    prefix' ts_duo = Return None ->
  _verify_response ikey' skey akey prefix'
    (response prefix skey akey u i t_duo t_app) ts_duo ts_app
  = Return None.
Proof.
  intros Hc H. apply _verify_response_duo_no_user.
  intros sig app_sig u0 E.
  rewrite split_response in E by assumption.
  injection E as <- _. now rewrite H.
Qed.

(** C3.  Expiration is checked when a value is parsed, against the clock
    reading [ts] of the parse, and strictly: a parse that yields a user has
    read an expiration [exp_i] from the payload with [ts < exp_i].  A value
    signed for 300 seconds at [sign_time] parses to its user exactly at
    the clock times below [sign_time + 300]: at [sign_time + 300] or later
    the parse, and the verification of a response with that first half,
    return [None]; at [sign_time + 299] both succeed. *)
Theorem expiration_is_strict
    (key prefix skey akey ikey' u i : string) (sign_time : Z) :
  contains "|" prefix = false ->
  contains "|" u = false -> contains "|" i = false ->
  let value := _sign_vals key [u; i] prefix 300 sign_time in
  let token := response AUTH_PREFIX skey akey u i sign_time sign_time in
  (forall val ts user,
      _parse_vals key val prefix ts = Return (Some user) ->
      exists u_b64 u_sig decoded ikey exp exp_i,
        split "|" val = [prefix; u_b64; u_sig]
        /\ b64decode u_b64 = Return decoded
        /\ split "|" decoded = [user; ikey; exp]
        /\ py_int exp = Return exp_i
        /\ ts < exp_i)
  /\ (forall ts,
         _parse_vals key value prefix ts = Return (Some u)
         <-> ts < sign_time + 300)
  /\ (forall ts,
         sign_time + 300 <= ts ->
         _parse_vals key value prefix ts = Return None)
  /\ _parse_vals key value prefix (sign_time + 299) = Return (Some u)
  /\ (forall ts_duo ts_app,
         sign_time + 300 <= ts_duo ->
         verify_response ikey' skey akey token ts_duo ts_app = Return None)
  /\ verify_response ikey' skey akey token
       (sign_time + 299) (sign_time + 299)
     = Return (Some u).
Proof.
  intros Hp Hu Hi value token.
  assert (V : forall ts,
             _parse_vals key value prefix ts
             = Return (if ts >=? sign_time + 300 then None else Some u)).
  { intros ts. unfold value.
    now rewrite _sign_vals_wire, _parse_vals_signed. }
  split; [| split; [| split; [| split; [| split]]]].
  - intros val ts user H. apply _parse_vals_Some_inv in H.
    destruct H as (b & s & ikey & exp & exp_i & E & _ & (d & D & E2) & I & T).
    exists b, s, d, ikey, exp, exp_i. auto.
  - intros ts. rewrite V.
    destruct (Z.geb_spec ts (sign_time + 300)) as [G|G]; split;
      intros H; try discriminate; try reflexivity; lia.
  - intros ts H. rewrite V.
    destruct (Z.geb_spec ts (sign_time + 300)) as [G|G]; [reflexivity | lia].
  - rewrite V.
    destruct (Z.geb_spec (sign_time + 299) (sign_time + 300));
      [lia | reflexivity].
  - intros ts_duo ts_app H. unfold verify_response, token.
    apply _verify_response_response_duo_None; [reflexivity |].
    rewrite _sign_vals_wire, _parse_vals_signed by (assumption || reflexivity).
    destruct (Z.geb_spec ts_duo (sign_time + DUO_EXPIRE));
      [reflexivity | unfold DUO_EXPIRE in *; lia].
  - unfold verify_response, token.
    apply _verify_response_response; try assumption; try reflexivity.
    + unfold DUO_EXPIRE. lia.
    + unfold APP_EXPIRE. lia.
Qed.

(** C6.  A value of three fields whose first field is not the expected
    prefix parses to [None], whatever its signature.  A value signed with
    [ENROLL] and checked against [AUTH] has a valid signature and parses to
    [None], and so does one signed with [AUTH] and checked against
    [ENROLL]; the responses built on them fail [verify_response] and
    [verify_enroll_response]. *)
Theorem prefix_is_enforced
    (key skey akey ikey' u i : string) (expire t t_app ts ts_app : Z) :
  (forall val prefix u_prefix u_b64 u_sig,
      split "|" val = [u_prefix; u_b64; u_sig] ->
      u_prefix <> prefix ->
      _parse_vals key val prefix ts = Return None)
  /\ sig_matches key ENROLL_PREFIX (payload u i (t + expire))
       (_hmac_sha1 key (ENROLL_PREFIX ++ "|" ++ payload u i (t + expire)))
     = true
  /\ _parse_vals key (_sign_vals key [u; i] ENROLL_PREFIX expire t)
       AUTH_PREFIX ts = Return None
  /\ _parse_vals key (_sign_vals key [u; i] AUTH_PREFIX expire t)
       ENROLL_PREFIX ts = Return None
  /\ verify_response ikey' skey akey
       (response ENROLL_PREFIX skey akey u i t t_app) ts ts_app
     = Return None
  /\ verify_enroll_response ikey' skey akey
       (response AUTH_PREFIX skey akey u i t t_app) ts ts_app
     = Return None.
Proof.
  split; [| split; [| split; [| split; [| split]]]].
  - intros val prefix p b s E N.
    rewrite (_parse_vals_fields _ _ _ _ _ _ _ E).
    destruct (sig_matches key p b s); cbn [negb]; [| reflexivity].
    destruct (String.eqb_spec p prefix); [contradiction | reflexivity].
  - unfold sig_matches. apply String.eqb_refl.
  - rewrite _sign_vals_wire.
    apply _parse_vals_signed_other; [reflexivity | discriminate].
  - rewrite _sign_vals_wire.
    apply _parse_vals_signed_other; [reflexivity | discriminate].
  - unfold verify_response.
    apply _verify_response_response_duo_None; [reflexivity |].
    rewrite _sign_vals_wire.
    apply _parse_vals_signed_other; [reflexivity | discriminate].
  - unfold verify_enroll_response.
    apply _verify_response_response_duo_None; [reflexivity |].
    rewrite _sign_vals_wire.
    apply _parse_vals_signed_other; [reflexivity | discriminate].
Qed.

(** C7.  Two halves signed with the right keys and not expired, the first
    for [alice] and the second for another user [bob]: each half parses to
    its own user, and the compound token fails verification. *)
Theorem username_binding
    (ikey' ikey skey akey alice bob : string)
    (t_duo t_app ts_duo ts_app : Z) :
  contains "|" alice = false -> contains "|" bob = false ->
  contains "|" ikey = false ->
  alice <> bob ->
  ts_duo < t_duo + 300 -> ts_app < t_app + 3600 ->
  let duo := _sign_vals skey [alice; ikey] AUTH_PREFIX DUO_EXPIRE t_duo in
  let app := _sign_vals akey [bob; ikey] APP_PREFIX APP_EXPIRE t_app in
  _parse_vals skey duo AUTH_PREFIX ts_duo = Return (Some alice)
  /\ _parse_vals akey app APP_PREFIX ts_app = Return (Some bob)
  /\ verify_response ikey' skey akey (duo ++ ":" ++ app) ts_duo ts_app
     = Return None.
Proof.
  intros Ha Hb Hi N T1 T2 duo app.
  assert (P1 : _parse_vals skey duo AUTH_PREFIX ts_duo = Return (Some alice)).
  { unfold duo.
    rewrite _sign_vals_wire, _parse_vals_signed by (assumption || reflexivity).
    destruct (Z.geb_spec ts_duo (t_duo + DUO_EXPIRE));
      [unfold DUO_EXPIRE in *; lia | reflexivity]. }
  assert (P2 : _parse_vals akey app APP_PREFIX ts_app = Return (Some bob)).
  { unfold app.
    rewrite _sign_vals_wire, _parse_vals_signed by (assumption || reflexivity).
    destruct (Z.geb_spec ts_app (t_app + APP_EXPIRE));
      [unfold APP_EXPIRE in *; lia | reflexivity]. }
  split; [exact P1 | split; [exact P2 |]].
  unfold verify_response. apply _verify_response_failure.
  eapply username_mismatch; eauto.
  apply split_token; unfold duo, app; rewrite _sign_vals_wire;
    now apply signed_value_no_colon.
Qed.

(** C8.  The integration key passed to the verifying functions does not
    reach their result: two calls that differ only in it agree.  The
    integration key inside the payload is not compared with it either: a
    response that carries [ikey_claim] verifies under any [ikey]. *)
Theorem ikey_is_not_used
    (ikey1 ikey2 skey akey sig_response : string) (ts_duo ts_app : Z) :
  verify_response ikey1 skey akey sig_response ts_duo ts_app
  = verify_response ikey2 skey akey sig_response ts_duo ts_app
  /\ verify_enroll_response ikey1 skey akey sig_response ts_duo ts_app
     = verify_enroll_response ikey2 skey akey sig_response ts_duo ts_app
  /\ (forall ikey_claim u t,
         contains "|" u = false -> contains "|" ikey_claim = false ->
         verify_response ikey1 skey akey
           (response AUTH_PREFIX skey akey u ikey_claim t t) t t
         = Return (Some u)).
Proof.
  split; [reflexivity | split; [reflexivity |]].
  intros ikey_claim u t Hu Hi. unfold verify_response.
  apply _verify_response_response; try assumption; try reflexivity.
  - unfold DUO_EXPIRE. lia.
  - unfold APP_EXPIRE. lia.
Qed.

End Checks.

Lemma expiration_is_strict_witness :
  let value := _sign_vals (P := Reference.primitives) Sample.skey
                 [Sample.username; Sample.ikey] AUTH_PREFIX 300 Sample.now in
  let token := response (P := Reference.primitives) AUTH_PREFIX Sample.skey
                 Sample.akey Sample.username Sample.ikey
                 Sample.now Sample.now in
  _parse_vals Sample.skey value AUTH_PREFIX (Sample.now + 300) = Return None
  /\ _parse_vals Sample.skey value AUTH_PREFIX (Sample.now + 299)
     = Return (Some Sample.username)
  /\ verify_response Sample.ikey Sample.skey Sample.akey token
       (Sample.now + 300) (Sample.now + 300) = Return None
  /\ verify_response Sample.ikey Sample.skey Sample.akey token
       (Sample.now + 299) (Sample.now + 299) = Return (Some Sample.username).
Proof.
  cbv zeta.
  destruct (expiration_is_strict (L := reference_lawful)
              Sample.skey AUTH_PREFIX Sample.skey Sample.akey Sample.ikey
              Sample.username Sample.ikey Sample.now
              eq_refl eq_refl eq_refl) as (_ & _ & A & B & C & D).
  split; [apply A; reflexivity | split; [exact B | split; [| exact D]]].
  apply C. reflexivity.
Defined.

Lemma prefix_is_enforced_witness :
  _parse_vals (P := Reference.primitives) Sample.skey
    "ENROLL|anNtaXRo|00" AUTH_PREFIX Sample.now = Return None
  /\ _parse_vals (P := Reference.primitives) Sample.skey
       (_sign_vals Sample.skey [Sample.username; Sample.ikey] ENROLL_PREFIX
          DUO_EXPIRE Sample.now) AUTH_PREFIX Sample.now = Return None
  /\ _parse_vals (P := Reference.primitives) Sample.skey
       (_sign_vals Sample.skey [Sample.username; Sample.ikey] AUTH_PREFIX
          DUO_EXPIRE Sample.now) ENROLL_PREFIX Sample.now = Return None
  /\ verify_response (P := Reference.primitives)
       Sample.ikey Sample.skey Sample.akey
       (response ENROLL_PREFIX Sample.skey Sample.akey Sample.username
          Sample.ikey Sample.now Sample.now) Sample.now Sample.now
     = Return None
  /\ verify_enroll_response (P := Reference.primitives)
       Sample.ikey Sample.skey Sample.akey
       (response AUTH_PREFIX Sample.skey Sample.akey Sample.username
          Sample.ikey Sample.now Sample.now) Sample.now Sample.now
     = Return None.
Proof.
  destruct (prefix_is_enforced (L := reference_lawful)
              Sample.skey Sample.skey Sample.akey Sample.ikey
              Sample.username Sample.ikey DUO_EXPIRE Sample.now Sample.now
              Sample.now Sample.now) as (A & _ & B & C & D & E).
  split; [| split; [exact B | split; [exact C | split; [exact D | exact E]]]].
  apply (A _ _ "ENROLL" "anNtaXRo" "00"); [reflexivity | discriminate].
Defined.

Lemma username_binding_witness :
  let duo := _sign_vals (P := Reference.primitives) Sample.skey
               ["alice"; Sample.ikey] AUTH_PREFIX DUO_EXPIRE Sample.now in
  let app := _sign_vals (P := Reference.primitives) Sample.akey
               ["bob"; Sample.ikey] APP_PREFIX APP_EXPIRE Sample.now in
  _parse_vals Sample.skey duo AUTH_PREFIX Sample.now = Return (Some "alice")
  /\ _parse_vals Sample.akey app APP_PREFIX Sample.now = Return (Some "bob")
  /\ verify_response Sample.ikey Sample.skey Sample.akey (duo ++ ":" ++ app)
       Sample.now Sample.now = Return None.
Proof.
  apply (username_binding (L := reference_lawful)
           Sample.ikey Sample.ikey Sample.skey Sample.akey "alice" "bob"
           Sample.now Sample.now Sample.now Sample.now);
    try reflexivity.
  discriminate.
Defined.

Lemma ikey_is_not_used_witness :
  verify_response (P := Reference.primitives)
    "00000000000000000000" Sample.skey Sample.akey
    (response AUTH_PREFIX Sample.skey Sample.akey Sample.username
       Sample.ikey Sample.now Sample.now) Sample.now Sample.now
  = Return (Some Sample.username).
Proof.
  apply (ikey_is_not_used (L := reference_lawful)
           "00000000000000000000" Sample.ikey Sample.skey Sample.akey ""
           0 0); reflexivity.
Defined.

(* ------------------------------------------------------------------ *)
(** ** Requests *)

Section Requests.

Context {P : Primitives}.

Definition signer : Type :=
  string -> string -> string -> string -> Z -> Z -> result string.

(** The sentinels of the module. *)
Definition sentinels : list string :=
  [ERR_USER; ERR_IKEY; ERR_SKEY; ERR_AKEY; ERR_UNKNOWN].

(** What a signing function does with its arguments: it returns; the
    checks are made in the order username, integration key, secret key,
    application key, and the first that fails selects the sentinel; with
    valid arguments the result is no sentinel. *)
Definition validates (sign : signer) : Prop :=
  forall ikey skey akey username t_duo t_app,
    (exists r, sign ikey skey akey username t_duo t_app = Return r)
    /\ (username = "" ->
        sign ikey skey akey username t_duo t_app = Return ERR_USER)
    /\ (username <> "" -> String.length ikey <> 20%nat ->
        sign ikey skey akey username t_duo t_app = Return ERR_IKEY)
    /\ (username <> "" -> String.length ikey = 20%nat ->
        String.length skey <> 40%nat ->
        sign ikey skey akey username t_duo t_app = Return ERR_SKEY)
    /\ (username <> "" -> String.length ikey = 20%nat ->
        String.length skey = 40%nat -> (String.length akey < 40)%nat ->
        sign ikey skey akey username t_duo t_app = Return ERR_AKEY)
    /\ (~ valid_inputs ikey skey akey username ->
        exists e, In e [ERR_USER; ERR_IKEY; ERR_SKEY; ERR_AKEY]
                  /\ sign ikey skey akey username t_duo t_app = Return e)
    /\ (valid_inputs ikey skey akey username ->
        exists token, sign ikey skey akey username t_duo t_app = Return token
                      /\ ~ In token sentinels).

Lemma sentinels_start_ERR (e : string) :
  In e sentinels -> exists rest, e = "ERR|" ++ rest.
Proof.
  intros [<- | [<- | [<- | [<- | [<- | []]]]]]; eexists; reflexivity.
Qed.

Section OnePrefix.

Variable prefix : string.

Lemma _sign_request_no_username (ikey skey akey username : string)
    (t_duo t_app : Z) :
  username = "" ->
  _sign_request ikey skey akey username prefix t_duo t_app = Return ERR_USER.
Proof. intros ->. reflexivity. Qed.

Lemma _sign_request_bad_ikey (ikey skey akey username : string)
    (t_duo t_app : Z) :
  username <> "" -> String.length ikey <> 20%nat ->
  _sign_request ikey skey akey username prefix t_duo t_app = Return ERR_IKEY.
Proof.
  intros Hu Hi. unfold _sign_request. rewrite (py_not_false _ Hu).
  destruct (Nat.eqb_spec (String.length ikey) IKEY_LEN) as [E|E];
    [contradiction |].
  cbn [negb]. now rewrite orb_true_r.
Qed.

Lemma _sign_request_bad_skey (ikey skey akey username : string)
    (t_duo t_app : Z) :
  username <> "" -> String.length ikey = 20%nat ->
  String.length skey <> 40%nat ->
  _sign_request ikey skey akey username prefix t_duo t_app = Return ERR_SKEY.
Proof.
  intros Hu Hi Hs. unfold _sign_request. rewrite (py_not_false _ Hu).
  rewrite (py_not_length ikey 19 Hi), Hi. cbn [Nat.eqb IKEY_LEN negb orb].
  destruct (Nat.eqb_spec (String.length skey) SKEY_LEN) as [E|E];
    [contradiction |].
  cbn [negb]. now rewrite orb_true_r.
Qed.

Lemma _sign_request_bad_akey (ikey skey akey username : string)
    (t_duo t_app : Z) :
  username <> "" -> String.length ikey = 20%nat ->
  String.length skey = 40%nat -> (String.length akey < 40)%nat ->
  _sign_request ikey skey akey username prefix t_duo t_app = Return ERR_AKEY.
Proof.
  intros Hu Hi Hs Ha. unfold _sign_request. rewrite (py_not_false _ Hu).
  rewrite (py_not_length ikey 19 Hi), Hi. cbn [Nat.eqb IKEY_LEN negb orb].
  rewrite (py_not_length skey 39 Hs), Hs. cbn [Nat.eqb SKEY_LEN negb orb].
  destruct (Nat.ltb_spec (String.length akey) AKEY_LEN) as [E|E];
    [| unfold AKEY_LEN in E; lia].
  now rewrite orb_true_r.
Qed.

Lemma _sign_request_invalid (ikey skey akey username : string)
    (t_duo t_app : Z) :
  ~ valid_inputs ikey skey akey username ->
  exists e, In e [ERR_USER; ERR_IKEY; ERR_SKEY; ERR_AKEY]
            /\ _sign_request ikey skey akey username prefix t_duo t_app
               = Return e.
Proof.
  intros V.
  destruct (string_dec username "") as [Hu|Hu].
  { exists ERR_USER. split; [cbn [In]; auto |].
    now apply _sign_request_no_username. }
  destruct (Nat.eq_dec (String.length ikey) 20) as [Hi|Hi].
  2:{ exists ERR_IKEY. split; [cbn [In]; auto |].
      now apply _sign_request_bad_ikey. }
  destruct (Nat.eq_dec (String.length skey) 40) as [Hs|Hs].
  2:{ exists ERR_SKEY. split; [cbn [In]; auto |].
      now apply _sign_request_bad_skey. }
  destruct (le_lt_dec 40 (String.length akey)) as [Ha|Ha].
  - exfalso. apply V. repeat split; assumption.
  - exists ERR_AKEY. split; [cbn [In]; auto |].
    now apply _sign_request_bad_akey.
Qed.

Hypothesis prefix_not_ERR : forall a b, prefix ++ a <> "ERR|" ++ b.

Lemma _sign_request_token (ikey skey akey username : string)
    (t_duo t_app : Z) :
  valid_inputs ikey skey akey username ->
  exists token,
    _sign_request ikey skey akey username prefix t_duo t_app = Return token
    /\ ~ In token sentinels.
Proof.
  intros (Hu & Hi & Hs & Ha).
  rewrite (_sign_request_valid _ _ _ _ _ _ _ Hu Hi Hs Ha).
  eexists. split; [reflexivity |].
  intros I. apply sentinels_start_ERR in I. destruct I as (rest & E).
  unfold signed_value at 1 in E. rewrite !app_assoc_str in E.
  exact (prefix_not_ERR _ _ E).
Qed.

Lemma _sign_request_validates :
  validates (fun i s a u => _sign_request i s a u prefix).
Proof.
  intros ikey skey akey username t_duo t_app.
  split; [| split; [| split; [| split; [| split; [| split]]]]].
  - destruct (_sign_request_head ikey skey akey username prefix t_duo t_app)
      as (p & rest & E & _). eauto.
  - apply _sign_request_no_username.
  - apply _sign_request_bad_ikey.
  - apply _sign_request_bad_skey.
  - apply _sign_request_bad_akey.
  - apply _sign_request_invalid.
  - apply _sign_request_token.
Qed.

End OnePrefix.

(** C4.  [sign_request] and [sign_enroll_request] return a value on every
    input.  They return [ERR_USER] for an empty username, [ERR_IKEY] for an
    integration key whose length is not 20, [ERR_SKEY] for a secret key
    whose length is not 40 and [ERR_AKEY] for an application key shorter
    than 40, the checks made in this order; whenever an argument is
    invalid the result is one of these four; with valid arguments it is a
    token that is none of the sentinels; and the five sentinels are
    pairwise different. *)
Theorem signing_validates_inputs :
  validates sign_request
  /\ validates sign_enroll_request
  /\ NoDup sentinels.
Proof.
  split; [| split].
  - apply (_sign_request_validates DUO_PREFIX). intros a b H. discriminate H.
  - apply (_sign_request_validates ENROLL_REQUEST_PREFIX).
    intros a b H. discriminate H.
  - unfold sentinels.
    repeat (constructor; [cbn [In]; intuition discriminate |]).
    constructor.
Qed.

(** C5.  With valid arguments [sign_request] returns the two signed values
    joined by [":"]; each is [prefix|payload|signature], the payload the
    base64 encoding of [username|ikey|expiration] and the signature the
    hexadecimal HMAC-SHA1 digest of [prefix|payload]; the first has prefix
    [TX], the secret key and the expiration 300 seconds after the clock
    reading, the second has prefix [APP], the application key and the
    expiration 3600 seconds after the clock reading.
    [sign_enroll_request] differs in the first prefix. *)
Theorem wire_format (ikey skey akey username : string) (now : Z) :
  valid_inputs ikey skey akey username ->
  let part prefix key expiration :=
    let payload :=
      b64encode (username ++ "|" ++ ikey ++ "|" ++ py_str expiration) in
    prefix ++ "|" ++ payload ++ "|"
    ++ hmac_sha1_hexdigest key (prefix ++ "|" ++ payload) in
  sign_request ikey skey akey username now now
  = Return (part "TX" skey (now + 300) ++ ":" ++ part "APP" akey (now + 3600))
  /\ sign_enroll_request ikey skey akey username now now
     = Return (part "ENROLL_REQUEST" skey (now + 300)
               ++ ":" ++ part "APP" akey (now + 3600)).
Proof.
  intros (Hu & Hi & Hs & Ha) part.
  unfold sign_request, sign_enroll_request.
  rewrite !(_sign_request_valid _ _ _ _ _ _ _ Hu Hi Hs Ha).
  split; reflexivity.
Qed.

End Requests.

Lemma signing_validates_inputs_witness :
  sign_request (P := Reference.primitives) "IIIIIIIIIIIIIIIIIII" Sample.skey
    Sample.akey Sample.username Sample.now Sample.now = Return ERR_IKEY
  /\ sign_request (P := Reference.primitives) Sample.ikey Sample.skey
       "AAAAAAAAAAAAAAAAAAAAAAAAAAAAAAAAAAAAAAA" Sample.username
       Sample.now Sample.now = Return ERR_AKEY
  /\ sign_enroll_request (P := Reference.primitives) Sample.ikey
       "SSSSSSSSSSSSSSSSSSSSSSSSSSSSSSSSSSSSSSSSS" Sample.akey Sample.username
       Sample.now Sample.now = Return ERR_SKEY
  /\ sign_enroll_request (P := Reference.primitives) Sample.ikey Sample.skey
       Sample.akey "" Sample.now Sample.now = Return ERR_USER
  /\ exists token,
       sign_request (P := Reference.primitives) Sample.ikey Sample.skey
         Sample.akey Sample.username Sample.now Sample.now = Return token
       /\ ~ In token sentinels.
Proof.
  destruct (signing_validates_inputs (P := Reference.primitives))
    as (R & E & _).
  split; [| split; [| split; [| split]]].
  - apply R; [discriminate | vm_compute; discriminate].
  - apply R; try reflexivity; [discriminate | vm_compute; lia].
  - apply E; try reflexivity; [discriminate | vm_compute; discriminate].
  - apply E. reflexivity.
  - apply R. exact Sample.valid.
Defined.

Lemma wire_format_witness :
  sign_request (P := Reference.primitives) Sample.ikey Sample.skey Sample.akey
    Sample.username Sample.now Sample.now
  = Return
      ("TX|anNtaXRofElJSUlJSUlJSUlJSUlJSUlJSUlJfDE3MDAwMDAzMDA=|"
       ++ "f48afd41237e56fc371d01139fd855c79e5e8ed3"
       ++ ":APP|anNtaXRofElJSUlJSUlJSUlJSUlJSUlJSUlJfDE3MDAwMDM2MDA=|"
       ++ "99845ab6d5dee6c1cf0cd46f541b5898fd40bf10").
Proof.
  rewrite (proj1 (wire_format (P := Reference.primitives)
                    Sample.ikey Sample.skey Sample.akey Sample.username
                    Sample.now Sample.valid)).
  vm_compute. reflexivity.
Defined.

(* ------------------------------------------------------------------ *)
(** ** Signatures *)

Section Signatures.

Context {P : Primitives} {L : Lawful P}.

(** A string with exactly two parts around [":"] has them where they are. *)
Lemma split_pair_inv (a b x y : string) :
  split ":" (a ++ ":" ++ b) = [x; y] -> x = a /\ y = b.
Proof.
  intros E. pose proof (length_split ":" (a ++ ":" ++ b)) as Len.
  rewrite E in Len. rewrite count_app in Len. cbn [append count] in Len.
  rewrite Ascii.eqb_refl in Len. cbn [List.length] in Len.
  assert (Ha : contains ":" a = false) by (apply count_contains; lia).
  assert (Hb : contains ":" b = false) by (apply count_contains; lia).
  rewrite (split_token a b Ha Hb) in E. now injection E as <- <-.
Qed.


(** Parsing a value whose payload holds a username with ["|"]. *)
Lemma _parse_vals_delimiter (key prefix username ikey : string) (e ts : Z) :
  contains "|" prefix = false -> contains "|" username = true ->
  _parse_vals key (signed_value prefix key username ikey e) prefix ts
  = Raise ValueError.
Proof.
  intros Hp Hu.
  rewrite (_parse_vals_fields _ _ _ _ _ _ _
             (split_signed_value prefix key username ikey e Hp)).
  unfold sig_matches. rewrite !String.eqb_refl. cbn [negb].
  unfold payload at 1. rewrite b64_roundtrip. cbn [bind].
  rewrite unpack3_count; [reflexivity |].
  rewrite !count_app. cbn [count]. rewrite Ascii.eqb_refl.
  apply contains_count_pos in Hu. lia.
Qed.

(** C10.  A username with ["|"] passes [sign_request], whose checks do not
    look for the delimiter: with keys of valid length the result is the
    compound token [TX|payload|signature:APP|payload|signature] built from
    that username, and no sentinel.  On this token the first half is
    refused for its prefix, the payload of the second half decodes to
    [username|ikey|expiration], which has more than three fields, so
    parsing the second half raises [ValueError] at the unpacking: the
    [try] block of [_verify_response] raises and [verify_response] returns
    [None].  The response to this request, whose first half is signed with
    [AUTH], raises at the same place in its first half and is refused at
    every clock reading. *)
Theorem delimiter_in_username
    (ikey skey akey username : string) (now ts_duo ts_app : Z) :
  String.length ikey = 20%nat -> String.length skey = 40%nat ->
  (40 <= String.length akey)%nat ->
  contains "|" username = true ->
  let duo_b64 :=
    b64encode (username ++ "|" ++ ikey ++ "|" ++ py_str (now + 300)) in
  let duo_sig :=
    "TX|" ++ duo_b64 ++ "|" ++ hmac_sha1_hexdigest skey ("TX|" ++ duo_b64) in
  let decoded := username ++ "|" ++ ikey ++ "|" ++ py_str (now + 3600) in
  let app_b64 := b64encode decoded in
  let app_hex := hmac_sha1_hexdigest akey ("APP|" ++ app_b64) in
  let app_sig := "APP|" ++ app_b64 ++ "|" ++ app_hex in
  let token := duo_sig ++ ":" ++ app_sig in
  sign_request ikey skey akey username now now = Return token
  /\ ~ In token sentinels
  /\ split ":" token = [duo_sig; app_sig]
  /\ _parse_vals skey duo_sig AUTH_PREFIX ts_duo = Return None
  /\ split "|" app_sig = ["APP"; app_b64; app_hex]
  /\ b64decode app_b64 = Return decoded
  /\ (3 < List.length (split "|" decoded))%nat
  /\ _parse_vals akey app_sig APP_PREFIX ts_app = Raise ValueError
  /\ ('(sig, app_sig) <- unpack2 (split ":" token) ;;
      user <- _parse_vals skey sig AUTH_PREFIX ts_duo ;;
      app_user <- _parse_vals akey app_sig APP_PREFIX ts_app ;;
      Return (user, app_user)) = Raise ValueError
  /\ verify_response ikey skey akey token ts_duo ts_app = Return None
  /\ (forall t,
         _parse_vals skey
           (_sign_vals skey [username; ikey] AUTH_PREFIX DUO_EXPIRE t)
           AUTH_PREFIX ts_duo = Raise ValueError)
  /\ (forall t,
         verify_response ikey skey akey
           (_sign_vals skey [username; ikey] AUTH_PREFIX DUO_EXPIRE t
            ++ ":" ++ app_sig) ts_duo ts_app = Return None).
Proof.
  intros Hi Hs Ha Hu duo_b64 duo_sig decoded app_b64 app_hex app_sig token.
  assert (Hn : username <> "") by (intros ->; discriminate).
  assert (Ed : duo_sig = signed_value DUO_PREFIX skey username ikey
                           (now + DUO_EXPIRE)) by reflexivity.
  assert (Ea : app_sig = signed_value APP_PREFIX akey username ikey
                           (now + APP_EXPIRE)) by reflexivity.
  assert (S : split ":" token = [duo_sig; app_sig]).
  { unfold token. rewrite Ed, Ea.
    apply split_token; now apply signed_value_no_colon. }
  assert (P1 : _parse_vals skey duo_sig AUTH_PREFIX ts_duo = Return None).
  { rewrite Ed. apply _parse_vals_signed_other; [reflexivity | discriminate]. }
  assert (P2 : _parse_vals akey app_sig APP_PREFIX ts_app = Raise ValueError).
  { rewrite Ea. now apply _parse_vals_delimiter. }
  assert (C : (3 <= count "|" decoded)%nat).
  { unfold decoded. rewrite !count_app. cbn [count]. rewrite Ascii.eqb_refl.
    apply contains_count_pos in Hu. lia. }
  split; [| split; [| split; [exact S | split; [exact P1 |]]]].
  - unfold sign_request, token. rewrite Ed, Ea.
    now apply _sign_request_valid.
  - intros I. apply sentinels_start_ERR in I. destruct I as (rest & E).
    discriminate E.
  - split; [| split; [| split; [| split; [exact P2 | split; [| split]]]]].
    + rewrite Ea.
      exact (split_signed_value APP_PREFIX akey username ikey
               (now + APP_EXPIRE) eq_refl).
    + apply b64_roundtrip.
    + rewrite length_split. lia.
    + rewrite S. cbn [unpack2 bind]. rewrite P1. cbn [bind].
      rewrite P2. reflexivity.
    + unfold verify_response, _verify_response.
      rewrite S. cbn [unpack2 bind]. rewrite P1. cbn [bind].
      rewrite P2. reflexivity.
    + split.
      * intros t. rewrite _sign_vals_wire.
        now apply _parse_vals_delimiter.
      * intros t. unfold verify_response, _verify_response.
        rewrite Ea, split_token, _sign_vals_wire
          by (rewrite ?_sign_vals_wire; now apply signed_value_no_colon).
        cbn [unpack2 bind].
        rewrite _parse_vals_delimiter by (reflexivity || assumption).
        reflexivity.
Qed.



End Signatures.


(** The request and the response for the username [j|smith]. *)
Lemma delimiter_in_username_witness :
  let duo_sig := "TX|anxzbWl0aHxJSUlJSUlJSUlJSUlJSUlJSUlJSXwxNzAwMDAwMzAw|"
                 ++ "8a93624ea90c616d83140df219402037b2d81f35" in
  let app_sig := "APP|anxzbWl0aHxJSUlJSUlJSUlJSUlJSUlJSUlJSXwxNzAwMDAzNjAw|"
                 ++ "e8e157a9e02c524fb5e2db376c8236f6f0a7fae4" in
  let auth_sig := "AUTH|anxzbWl0aHxJSUlJSUlJSUlJSUlJSUlJSUlJSXwxNzAwMDAwMzAw|"
                  ++ "ddc410742aadcf73c232aebe265c6fdbfec3971c" in
  sign_request (P := Reference.primitives) Sample.ikey Sample.skey
    Sample.akey "j|smith" Sample.now Sample.now
  = Return (duo_sig ++ ":" ++ app_sig)
  /\ b64decode (Primitives := Reference.primitives)
       "anxzbWl0aHxJSUlJSUlJSUlJSUlJSUlJSUlJSXwxNzAwMDAzNjAw"
     = Return "j|smith|IIIIIIIIIIIIIIIIIIII|1700003600"
  /\ _parse_vals (P := Reference.primitives) Sample.akey app_sig APP_PREFIX
       Sample.now = Raise ValueError
  /\ verify_response (P := Reference.primitives) Sample.ikey Sample.skey
       Sample.akey (duo_sig ++ ":" ++ app_sig) Sample.now Sample.now
     = Return None
  /\ verify_response (P := Reference.primitives) Sample.ikey Sample.skey
       Sample.akey (auth_sig ++ ":" ++ app_sig) Sample.now Sample.now
     = Return None.
Proof.
  cbv zeta.
  pose (decoded := "j|smith" ++ "|" ++ Sample.ikey ++ "|"
                   ++ py_str (Sample.now + 3600)).
  pose (duo_b64 := b64encode (Primitives := Reference.primitives)
                     ("j|smith" ++ "|" ++ Sample.ikey ++ "|"
                      ++ py_str (Sample.now + 300))).
  pose (app_b64 := b64encode (Primitives := Reference.primitives) decoded).
  assert (Xd : "TX|anxzbWl0aHxJSUlJSUlJSUlJSUlJSUlJSUlJSXwxNzAwMDAwMzAw|"
               ++ "8a93624ea90c616d83140df219402037b2d81f35"
               = "TX|" ++ duo_b64 ++ "|"
                 ++ hmac_sha1_hexdigest Sample.skey ("TX|" ++ duo_b64))
    by (vm_compute; reflexivity).
  assert (Xa : "APP|anxzbWl0aHxJSUlJSUlJSUlJSUlJSUlJSUlJSXwxNzAwMDAzNjAw|"
               ++ "e8e157a9e02c524fb5e2db376c8236f6f0a7fae4"
               = "APP|" ++ app_b64 ++ "|"
                 ++ hmac_sha1_hexdigest Sample.akey ("APP|" ++ app_b64))
    by (vm_compute; reflexivity).
  assert (Xr : "AUTH|anxzbWl0aHxJSUlJSUlJSUlJSUlJSUlJSUlJSXwxNzAwMDAwMzAw|"
               ++ "ddc410742aadcf73c232aebe265c6fdbfec3971c"
               = _sign_vals (P := Reference.primitives) Sample.skey
                   ["j|smith"; Sample.ikey] AUTH_PREFIX DUO_EXPIRE Sample.now)
    by (vm_compute; reflexivity).
  assert (Xb : "anxzbWl0aHxJSUlJSUlJSUlJSUlJSUlJSUlJSXwxNzAwMDAzNjAw"
               = app_b64)
    by (vm_compute; reflexivity).
  assert (Xp : "j|smith|IIIIIIIIIIIIIIIIIIII|1700003600" = decoded)
    by (vm_compute; reflexivity).
  rewrite Xd, Xa, Xr, Xb, Xp.
  destruct (delimiter_in_username (L := reference_lawful)
              Sample.ikey Sample.skey Sample.akey "j|smith"
              Sample.now Sample.now Sample.now
              eq_refl eq_refl (Nat.le_refl 40) eq_refl)
    as (E & _ & _ & _ & _ & D & _ & P2 & _ & V & _ & R).
  split; [exact E | split; [exact D | split; [exact P2 |]]].
  split; [exact V | exact (R Sample.now)].
Defined.

(* ------------------------------------------------------------------ *)
(** ** More on [split] and [join] *)

(** No field of a split string holds the separator. *)
Lemma split_fields (c : ascii) (s x : string) :
  In x (split c s) -> contains c x = false.
Proof.
  revert x. induction s as [|a s IH]; cbn [split]; intros x.
  - intros [<- | []]. reflexivity.
  - destruct (Ascii.eqb a c) eqn:E.
    + intros [<- | H]; [reflexivity | now apply IH].
    + destruct (split c s) as [|w ws] eqn:S.
      * intros [<- | []]. cbn [contains]. now rewrite E.
      * intros [<- | H].
        -- cbn [contains]. rewrite E. apply IH. now left.
        -- apply IH. now right.
Qed.

(** Joining the fields of a split string gives the string back. *)
Lemma join_split (c : ascii) (s : string) :
  join (String c "") (split c s) = s.
Proof.
  induction s as [|a s IH]; cbn [split]; [reflexivity |].
  destruct (Ascii.eqb_spec a c) as [->|N].
  - destruct (split c s) as [|w ws] eqn:S; [now apply split_not_nil in S |].
    cbn [join append] in *. now rewrite IH.
  - destruct (split c s) as [|w ws] eqn:S; [now apply split_not_nil in S |].
    destruct ws; cbn [join append] in *; now rewrite <- IH.
Qed.

(** Splitting the join of separator-free fields gives the fields back. *)
Lemma split_join (c : ascii) (l : list string) :
  l <> [] -> Forall (fun x => contains c x = false) l ->
  split c (join (String c "") l) = l.
Proof.
  induction l as [|x [|y r] IH]; intros N F.
  - contradiction.
  - cbn [join]. apply split_no_sep. now inversion F.
  - inversion F as [|? ? Hx F']; subst.
    change (join (String c "") (x :: y :: r))
      with (x ++ String c "" ++ join (String c "") (y :: r)).
    cbn [append]. rewrite split_app_sep by assumption.
    now rewrite IH by (discriminate || assumption).
Qed.

Lemma length_append (a b : string) :
  String.length (a ++ b) = (String.length a + String.length b)%nat.
Proof.
  induction a as [|x a IH]; cbn [append String.length]; [reflexivity |].
  now rewrite IH.
Qed.

(** A common suffix cancels. *)
Lemma append_cancel_r (a b c : string) : a ++ c = b ++ c -> a = b.
Proof.
  revert b. induction a as [|x a IH]; intros [|y b] H.
  - reflexivity.
  - apply (f_equal String.length) in H.
    cbn [append String.length] in H. rewrite length_append in H. lia.
  - apply (f_equal String.length) in H.
    cbn [append String.length] in H. rewrite length_append in H. lia.
  - cbn [append] in H. injection H as -> H. now rewrite (IH b H).
Qed.

Lemma split_two_iff (c : ascii) (s a b : string) :
  split c s = [a; b]
  <-> s = a ++ String c b /\ contains c a = false /\ contains c b = false.
Proof.
  split.
  - intros E. pose proof (join_split c s) as J. rewrite E in J.
    cbn [join append] in J.
    repeat split; [now symmetry | |];
      apply (split_fields c s); rewrite E; cbn [In]; auto.
  - intros (-> & Ha & Hb). now apply split2.
Qed.

Lemma split_three_iff (c : ascii) (s a b d : string) :
  split c s = [a; b; d]
  <-> s = a ++ String c (b ++ String c d)
      /\ contains c a = false /\ contains c b = false
      /\ contains c d = false.
Proof.
  split.
  - intros E. pose proof (join_split c s) as J. rewrite E in J.
    cbn [join append] in J.
    repeat split; [now symmetry | | |];
      apply (split_fields c s); rewrite E; cbn [In]; auto.
  - intros (-> & Ha & Hb & Hd). now apply split3.
Qed.

(* ------------------------------------------------------------------ *)
(** ** What is accepted *)

Section Acceptance.

Context {P : Primitives}.

(** The signed values that [key] and [prefix] accept for [user] at clock
    reading [ts]: three fields, the expected prefix first, a signature with
    the keyed digest of the recomputed one, a payload that decodes to three
    fields, the user first, and an expiration after [ts]. *)
Definition accepts (key prefix val user : string) (ts : Z) : Prop :=
  exists u_b64 u_sig ikey exp exp_i,
    val = prefix ++ "|" ++ u_b64 ++ "|" ++ u_sig
    /\ contains "|" prefix = false
    /\ contains "|" u_b64 = false
    /\ contains "|" u_sig = false
    /\ _hmac_sha1 key (_hmac_sha1 key (prefix ++ "|" ++ u_b64))
       = _hmac_sha1 key u_sig
    /\ b64decode u_b64 = Return (user ++ "|" ++ ikey ++ "|" ++ exp)
    /\ contains "|" user = false
    /\ contains "|" ikey = false
    /\ contains "|" exp = false
    /\ py_int exp = Return exp_i
    /\ ts < exp_i.

Lemma _parse_vals_accepts (key prefix val user : string) (ts : Z) :
  _parse_vals key val prefix ts = Return (Some user)
  <-> accepts key prefix val user ts.
Proof.
  split.
  - intros H. apply _parse_vals_Some_inv in H.
    destruct H as (b & s & i & x & e & E & S & (d & D & E2) & I & T).
    apply split_three_iff in E. destruct E as (-> & Hp & Hb & Hs).
    apply split_three_iff in E2. destruct E2 as (-> & Hu & Hi & Hx).
    unfold sig_matches in S. apply String.eqb_eq in S.
    exists b, s, i, x, e. repeat split; assumption.
  - intros (b & s & i & x & e & -> & Hp & Hb & Hs & S & D & Hu & Hi & Hx
            & I & T).
    cbn [append].
    rewrite (_parse_vals_fields _ _ _ _ _ _ _ (split3 "|" _ _ _ Hp Hb Hs)).
    unfold sig_matches. cbn [append]. cbn [append] in S. rewrite S.
    rewrite !String.eqb_refl. cbn [negb]. rewrite D. cbn [bind append].
    rewrite (split3 "|" _ _ _ Hu Hi Hx). cbn [unpack3 bind]. rewrite I.
    cbn [bind]. destruct (Z.geb_spec ts e); [lia | reflexivity].
Qed.

Lemma _verify_response_accepts (ikey skey akey prefix sig_response u : string)
    (ts_duo ts_app : Z) :
  _verify_response ikey skey akey prefix sig_response ts_duo ts_app
  = Return (Some u)
  <-> exists sig app_sig,
        sig_response = sig ++ ":" ++ app_sig
        /\ contains ":" sig = false /\ contains ":" app_sig = false
        /\ accepts skey prefix sig u ts_duo
        /\ accepts akey APP_PREFIX app_sig u ts_app.
Proof.
  split.
  - intros H.
    destruct (_verify_response_cases ikey skey akey prefix sig_response
                ts_duo ts_app) as [R | (s & a & v & E & P1 & P2 & R)];
      [congruence |].
    rewrite R in H. injection H as ->.
    apply split_two_iff in E. destruct E as (-> & Hs & Ha).
    exists s, a. repeat split; try assumption; now apply _parse_vals_accepts.
  - intros (s & a & -> & Hs & Ha & A1 & A2).
    eapply _verify_response_success.
    + now apply split_token.
    + now apply _parse_vals_accepts.
    + now apply _parse_vals_accepts.
Qed.

(** X1.  [verify_response] returns a user exactly on the strings
    [PREFIX|payload|signature:APP|payload'|signature'] with [PREFIX] equal
    to [AUTH], no further [":"] or ["|"], each signature with the keyed
    digest of the recomputed one under its key, each payload decoding to
    three fields with that user first, and each expiration after the clock
    reading of its half; [verify_enroll_response] likewise with [ENROLL]. *)
Theorem verify_accepts_iff (ikey skey akey sig_response u : string)
    (ts_duo ts_app : Z) :
  (verify_response ikey skey akey sig_response ts_duo ts_app
   = Return (Some u)
   <-> exists sig app_sig,
         sig_response = sig ++ ":" ++ app_sig
         /\ contains ":" sig = false /\ contains ":" app_sig = false
         /\ accepts skey AUTH_PREFIX sig u ts_duo
         /\ accepts akey APP_PREFIX app_sig u ts_app)
  /\ (verify_enroll_response ikey skey akey sig_response ts_duo ts_app
      = Return (Some u)
      <-> exists sig app_sig,
            sig_response = sig ++ ":" ++ app_sig
            /\ contains ":" sig = false /\ contains ":" app_sig = false
            /\ accepts skey ENROLL_PREFIX sig u ts_duo
            /\ accepts akey APP_PREFIX app_sig u ts_app).
Proof.
  split; apply _verify_response_accepts.
Qed.

Lemma accepts_earlier (key prefix val user : string) (ts ts' : Z) :
  ts' <= ts -> accepts key prefix val user ts -> accepts key prefix val user ts'.
Proof.
  intros Le (b & s & i & x & e & H).
  exists b, s, i, x, e. intuition lia.
Qed.

Lemma accepts_prefix (key key' prefix prefix' val u u' : string) (ts ts' : Z) :
  accepts key prefix val u ts -> accepts key' prefix' val u' ts' ->
  prefix = prefix'.
Proof.
  intros (b & s & _ & _ & _ & E & Hp & Hb & Hs & _)
         (b' & s' & _ & _ & _ & E' & Hp' & Hb' & Hs' & _).
  assert (S1 : split "|" val = [prefix; b; s])
    by (rewrite E; cbn [append]; now apply split3).
  assert (S2 : split "|" val = [prefix'; b'; s'])
    by (rewrite E'; cbn [append]; now apply split3).
  congruence.
Qed.

(** X2.  Verification is monotone in the clock, for every response string:
    a string that verifies to a user at clock readings [ts_duo], [ts_app]
    verifies to the same user at all earlier readings, and a string that
    is refused is refused at all later readings. *)
Theorem verification_is_monotone (ikey skey akey sig_response : string)
    (ts_duo ts_app ts_duo' ts_app' : Z) :
  ts_duo' <= ts_duo -> ts_app' <= ts_app ->
  (forall u,
      verify_response ikey skey akey sig_response ts_duo ts_app
      = Return (Some u) ->
      verify_response ikey skey akey sig_response ts_duo' ts_app'
      = Return (Some u))
  /\ (verify_response ikey skey akey sig_response ts_duo' ts_app'
      = Return None ->
      verify_response ikey skey akey sig_response ts_duo ts_app
      = Return None)
  /\ (forall u,
         verify_enroll_response ikey skey akey sig_response ts_duo ts_app
         = Return (Some u) ->
         verify_enroll_response ikey skey akey sig_response ts_duo' ts_app'
         = Return (Some u))
  /\ (verify_enroll_response ikey skey akey sig_response ts_duo' ts_app'
      = Return None ->
      verify_enroll_response ikey skey akey sig_response ts_duo ts_app
      = Return None).
Proof.
  intros L1 L2.
  assert (M : forall prefix u,
             _verify_response ikey skey akey prefix sig_response ts_duo ts_app
             = Return (Some u) ->
             _verify_response ikey skey akey prefix sig_response
               ts_duo' ts_app' = Return (Some u)).
  { intros prefix u H. apply _verify_response_accepts in H.
    destruct H as (s & a & E & Hs & Ha & A1 & A2).
    apply _verify_response_accepts. exists s, a.
    repeat split; try assumption; eapply accepts_earlier; eauto. }
  assert (N : forall prefix,
             _verify_response ikey skey akey prefix sig_response
               ts_duo' ts_app' = Return None ->
             _verify_response ikey skey akey prefix sig_response ts_duo ts_app
             = Return None).
  { intros prefix H.
    destruct (_verify_response_cases ikey skey akey prefix sig_response
                ts_duo ts_app) as [R | (s & a & v & _ & _ & _ & R)];
      [exact R |].
    apply M in R. congruence. }
  unfold verify_response, verify_enroll_response. repeat split; auto.
Qed.

(** X3.  No string is both an authentication response and an enrollment
    response: whatever the keys and the clock readings of the two calls, a
    string on which [verify_response] returns a user makes
    [verify_enroll_response] return [None], and conversely. *)
Theorem auth_and_enroll_are_exclusive
    (ikey skey akey ikey' skey' akey' sig_response u : string)
    (ts_duo ts_app ts_duo' ts_app' : Z) :
  (verify_response ikey skey akey sig_response ts_duo ts_app
   = Return (Some u) ->
   verify_enroll_response ikey' skey' akey' sig_response ts_duo' ts_app'
   = Return None)
  /\ (verify_enroll_response ikey skey akey sig_response ts_duo ts_app
      = Return (Some u) ->
      verify_response ikey' skey' akey' sig_response ts_duo' ts_app'
      = Return None).
Proof.
  assert (X : forall p p', p <> p' ->
             _verify_response ikey skey akey p sig_response ts_duo ts_app
             = Return (Some u) ->
             _verify_response ikey' skey' akey' p' sig_response
               ts_duo' ts_app' = Return None).
  { intros p p' N H.
    destruct (_verify_response_cases ikey' skey' akey' p' sig_response
                ts_duo' ts_app') as [R | (s' & a' & v & E' & P1' & _ & _)];
      [exact R | exfalso].
    destruct (_verify_response_cases ikey skey akey p sig_response
                ts_duo ts_app) as [R | (s & a & w & E & P1 & _ & _)];
      [congruence |].
    rewrite E in E'. injection E' as <- <-.
    apply _parse_vals_accepts in P1, P1'.
    exact (N (accepts_prefix _ _ _ _ _ _ _ _ _ P1 P1')). }
  unfold verify_response, verify_enroll_response.
  split; apply X; discriminate.
Qed.

(** X4.  The two halves of a response are not interchangeable: when
    [verify_response] or [verify_enroll_response] returns a user on
    [sig:app_sig], both return [None] on [app_sig:sig], whatever the keys
    and the clock. *)
Theorem halves_are_not_interchangeable
    (ikey skey akey ikey' skey' akey' sig app_sig u : string)
    (ts_duo ts_app ts_duo' ts_app' : Z) :
  verify_response ikey skey akey (sig ++ ":" ++ app_sig) ts_duo ts_app
  = Return (Some u)
  \/ verify_enroll_response ikey skey akey (sig ++ ":" ++ app_sig)
       ts_duo ts_app = Return (Some u) ->
  verify_response ikey' skey' akey' (app_sig ++ ":" ++ sig) ts_duo' ts_app'
  = Return None
  /\ verify_enroll_response ikey' skey' akey' (app_sig ++ ":" ++ sig)
       ts_duo' ts_app' = Return None.
Proof.
  intros H.
  assert (A : exists p, contains ":" sig = false
                        /\ contains ":" app_sig = false
                        /\ accepts akey APP_PREFIX app_sig u ts_app
                        /\ accepts skey p sig u ts_duo).
  { unfold verify_response, verify_enroll_response in H.
    destruct H as [H|H]; apply _verify_response_accepts in H;
      destruct H as (s & a & E & Hs & Ha & A1 & A2);
      assert (S : split ":" (sig ++ ":" ++ app_sig) = [s; a])
        by (rewrite E; now apply split_token);
      apply split_pair_inv in S; destruct S as [-> ->]; eauto. }
  destruct A as (p & Hs & Ha & A2 & _).
  assert (X : forall p', p' <> APP_PREFIX ->
             _verify_response ikey' skey' akey' p' (app_sig ++ ":" ++ sig)
               ts_duo' ts_app' = Return None).
  { intros p' N. apply _verify_response_duo_no_user.
    intros s a v E Q. rewrite (split_token _ _ Ha Hs) in E.
    injection E as <- <-. apply _parse_vals_accepts in Q.
    exact (N (accepts_prefix _ _ _ _ _ _ _ _ _ Q A2)). }
  unfold verify_response, verify_enroll_response.
  split; apply X; discriminate.
Qed.

End Acceptance.

Lemma verify_accepts_iff_witness :
  exists sig app_sig,
    response (P := Reference.primitives) AUTH_PREFIX Sample.skey Sample.akey
      Sample.username Sample.ikey Sample.now Sample.now
    = sig ++ ":" ++ app_sig
    /\ contains ":" sig = false /\ contains ":" app_sig = false
    /\ accepts Sample.skey AUTH_PREFIX sig Sample.username Sample.now
    /\ accepts Sample.akey APP_PREFIX app_sig Sample.username Sample.now.
Proof.
  apply (proj1 (proj1 (verify_accepts_iff (P := Reference.primitives)
                         Sample.ikey Sample.skey Sample.akey _
                         Sample.username Sample.now Sample.now))).
  vm_compute. reflexivity.
Defined.

Lemma verification_is_monotone_witness :
  verify_response (P := Reference.primitives)
    Sample.ikey Sample.skey Sample.akey
    (response AUTH_PREFIX Sample.skey Sample.akey Sample.username
       Sample.ikey Sample.now Sample.now) Sample.now (Sample.now + 100)
  = Return (Some Sample.username).
Proof.
  apply (proj1 (verification_is_monotone (P := Reference.primitives)
                  Sample.ikey Sample.skey Sample.akey _
                  (Sample.now + 299) (Sample.now + 3599)
                  Sample.now (Sample.now + 100)
                  ltac:(vm_compute; discriminate)
                  ltac:(vm_compute; discriminate))).
  vm_compute. reflexivity.
Defined.

Lemma auth_and_enroll_are_exclusive_witness :
  verify_enroll_response (P := Reference.primitives)
    Sample.ikey Sample.skey Sample.akey
    (response AUTH_PREFIX Sample.skey Sample.akey Sample.username
       Sample.ikey Sample.now Sample.now) Sample.now Sample.now
  = Return None.
Proof.
  apply (proj1 (auth_and_enroll_are_exclusive (P := Reference.primitives)
                  Sample.ikey Sample.skey Sample.akey
                  Sample.ikey Sample.skey Sample.akey _ Sample.username
                  Sample.now Sample.now Sample.now Sample.now)).
  vm_compute. reflexivity.
Defined.

Lemma halves_are_not_interchangeable_witness :
  let sig := _sign_vals (P := Reference.primitives) Sample.skey
               [Sample.username; Sample.ikey] AUTH_PREFIX DUO_EXPIRE
               Sample.now in
  let app_sig := _sign_vals (P := Reference.primitives) Sample.akey
                   [Sample.username; Sample.ikey] APP_PREFIX APP_EXPIRE
                   Sample.now in
  verify_response Sample.ikey Sample.skey Sample.akey
    (app_sig ++ ":" ++ sig) Sample.now Sample.now = Return None
  /\ verify_enroll_response Sample.ikey Sample.skey Sample.akey
       (app_sig ++ ":" ++ sig) Sample.now Sample.now = Return None.
Proof.
  cbv zeta.
  apply (halves_are_not_interchangeable (P := Reference.primitives)
           Sample.ikey Sample.skey Sample.akey
           Sample.ikey Sample.skey Sample.akey _ _ Sample.username
           Sample.now Sample.now Sample.now Sample.now).
  left. vm_compute. reflexivity.
Defined.

(* ------------------------------------------------------------------ *)
(** ** Requests are not responses *)

Section RequestsOnly.

Context {P : Primitives}.

Lemma _sign_request_never_verifies
    (ikey skey akey username prefix prefix' : string) (t_duo t_app : Z)
    (ikey' skey' akey' : string) (ts_duo ts_app : Z) :
  contains ":" prefix = false -> contains "|" prefix = false ->
  prefix <> prefix' -> "ERR" <> prefix' ->
  exists r,
    _sign_request ikey skey akey username prefix t_duo t_app = Return r
    /\ _verify_response ikey' skey' akey' prefix' r ts_duo ts_app
       = Return None.
Proof.
  intros Hc Hp N NE.
  destruct (_sign_request_head ikey skey akey username prefix t_duo t_app)
    as (p & rest & E & [-> | ->]);
    rewrite E; eexists; (split; [reflexivity |]);
    now apply _verify_response_head.
Qed.

(** X5.  What the signing functions return is never accepted by the
    verifying functions: for all arguments, valid or not, the result of
    [sign_request] and of [sign_enroll_request] makes [verify_response]
    and [verify_enroll_response] return [None], under any keys and at any
    clock reading. *)
Theorem requests_are_not_responses
    (ikey skey akey username : string) (t_duo t_app : Z) :
  exists request enroll_request,
    sign_request ikey skey akey username t_duo t_app = Return request
    /\ sign_enroll_request ikey skey akey username t_duo t_app
       = Return enroll_request
    /\ forall ikey' skey' akey' ts_duo ts_app,
         verify_response ikey' skey' akey' request ts_duo ts_app
         = Return None
         /\ verify_enroll_response ikey' skey' akey' request ts_duo ts_app
            = Return None
         /\ verify_response ikey' skey' akey' enroll_request ts_duo ts_app
            = Return None
         /\ verify_enroll_response ikey' skey' akey' enroll_request
              ts_duo ts_app = Return None.
Proof.
  unfold sign_request, sign_enroll_request, verify_response,
    verify_enroll_response.
  destruct (_sign_request_head ikey skey akey username DUO_PREFIX
              t_duo t_app) as (p & rest & E & Hp).
  destruct (_sign_request_head ikey skey akey username ENROLL_REQUEST_PREFIX
              t_duo t_app) as (p' & rest' & E' & Hp').
  rewrite E, E'. do 2 eexists. split; [reflexivity | split; [reflexivity |]].
  intros ikey' skey' akey' ts_duo ts_app.
  destruct Hp as [-> | ->], Hp' as [-> | ->];
    repeat split; apply _verify_response_head;
      reflexivity || discriminate.
Qed.

Lemma valid_inputs_dec (ikey skey akey username : string) :
  {valid_inputs ikey skey akey username}
  + {~ valid_inputs ikey skey akey username}.
Proof.
  unfold valid_inputs.
  destruct (string_dec username "");
    [right; tauto |].
  destruct (Nat.eq_dec (String.length ikey) IKEY_LEN); [| right; tauto].
  destruct (Nat.eq_dec (String.length skey) SKEY_LEN); [| right; tauto].
  destruct (le_lt_dec AKEY_LEN (String.length akey)); [left; tauto |].
  right. intros (_ & _ & _ & H). lia.
Qed.

Lemma _sign_request_ERR (ikey skey akey username prefix : string)
    (t_duo t_app : Z) :
  (forall rest, String.prefix "ERR|" (prefix ++ rest) = false) ->
  exists r,
    _sign_request ikey skey akey username prefix t_duo t_app = Return r
    /\ (String.prefix "ERR|" r = true
        <-> ~ valid_inputs ikey skey akey username).
Proof.
  intros Hp.
  destruct (valid_inputs_dec ikey skey akey username) as [V | V].
  - destruct V as (Hu & Hi & Hs & Ha).
    rewrite (_sign_request_valid _ _ _ _ _ _ _ Hu Hi Hs Ha).
    eexists. split; [reflexivity |].
    unfold signed_value at 1. rewrite !app_assoc_str, Hp.
    split; [discriminate |].
    intros N. exfalso. apply N. repeat split; assumption.
  - destruct (_sign_request_invalid prefix ikey skey akey username
                t_duo t_app V) as (e & I & E).
    rewrite E. exists e. split; [reflexivity |].
    split; [intros _; exact V | intros _].
    destruct I as [<- | [<- | [<- | [<- | []]]]]; reflexivity.
Qed.

(** X6.  The result of [sign_request] and of [sign_enroll_request] starts
    with ["ERR|"] exactly when an argument is invalid (an empty username,
    an integration key not of length 20, a secret key not of length 40 or
    an application key shorter than 40): the test on this prefix tells a
    sentinel from a token. *)
Theorem error_prefix_iff_invalid
    (ikey skey akey username : string) (t_duo t_app : Z) :
  (exists r,
      sign_request ikey skey akey username t_duo t_app = Return r
      /\ (String.prefix "ERR|" r = true
          <-> ~ valid_inputs ikey skey akey username))
  /\ (exists r,
         sign_enroll_request ikey skey akey username t_duo t_app = Return r
         /\ (String.prefix "ERR|" r = true
             <-> ~ valid_inputs ikey skey akey username)).
Proof.
  split; apply _sign_request_ERR; intros rest; reflexivity.
Qed.

End RequestsOnly.

(* ------------------------------------------------------------------ *)
(** ** The protocol, end to end *)

Section Protocol.

Context {P : Primitives} {L : Lawful P}.

(** A response verifies exactly while neither half has expired. *)
Lemma _verify_response_response_window
    (ikey' prefix skey akey u i : string) (t_duo t_app ts_duo ts_app : Z) :
  contains ":" prefix = false -> contains "|" prefix = false ->
  contains "|" u = false -> contains "|" i = false ->
  _verify_response ikey' skey akey prefix
    (response prefix skey akey u i t_duo t_app) ts_duo ts_app
  = Return (if (ts_duo <? t_duo + 300) && (ts_app <? t_app + 3600)
            then Some u else None).
Proof.
  intros Hc Hp Hu Hi. unfold _verify_response.
  rewrite split_response by assumption. cbn [unpack2 bind].
  rewrite !_sign_vals_wire.
  rewrite !_parse_vals_signed by (assumption || reflexivity).
  cbn [bind]. unfold DUO_EXPIRE, APP_EXPIRE.
  destruct (Z.geb_spec ts_duo (t_duo + 300)),
           (Z.geb_spec ts_app (t_app + 3600)),
           (Z.ltb_spec ts_duo (t_duo + 300)),
           (Z.ltb_spec ts_app (t_app + 3600));
    try lia; cbn [py_ne andb]; try reflexivity.
  now rewrite String.eqb_refl.
Qed.

(** X7.  The protocol round trip.  With valid arguments and no ["|"] in
    the username and the integration key, [sign_request] returns
    [duo_sig:app_sig]; the response made of a first half signed under the
    secret key with [AUTH] at clock reading [t] and of that [app_sig]
    verifies to the username exactly while [ts_duo < t + 300] and
    [ts_app < t_app + 3600], and to [None] otherwise.  The same holds for
    [sign_enroll_request] and [verify_enroll_response] with [ENROLL]. *)
Theorem protocol_round_trip
    (ikey skey akey username : string) (t_duo t_app : Z) :
  valid_inputs ikey skey akey username ->
  contains "|" username = false -> contains "|" ikey = false ->
  (exists duo_sig app_sig,
      sign_request ikey skey akey username t_duo t_app
      = Return (duo_sig ++ ":" ++ app_sig)
      /\ split ":" (duo_sig ++ ":" ++ app_sig) = [duo_sig; app_sig]
      /\ forall t ts_duo ts_app,
           verify_response ikey skey akey
             (_sign_vals skey [username; ikey] AUTH_PREFIX DUO_EXPIRE t
              ++ ":" ++ app_sig) ts_duo ts_app
           = Return (if (ts_duo <? t + 300) && (ts_app <? t_app + 3600)
                     then Some username else None))
  /\ (exists duo_sig app_sig,
         sign_enroll_request ikey skey akey username t_duo t_app
         = Return (duo_sig ++ ":" ++ app_sig)
         /\ split ":" (duo_sig ++ ":" ++ app_sig) = [duo_sig; app_sig]
         /\ forall t ts_duo ts_app,
              verify_enroll_response ikey skey akey
                (_sign_vals skey [username; ikey] ENROLL_PREFIX DUO_EXPIRE t
                 ++ ":" ++ app_sig) ts_duo ts_app
              = Return (if (ts_duo <? t + 300) && (ts_app <? t_app + 3600)
                        then Some username else None)).
Proof.
  intros (Hu & Hi & Hs & Ha) Pu Pi.
  unfold sign_request, sign_enroll_request, verify_response,
    verify_enroll_response.
  rewrite !(_sign_request_valid _ _ _ _ _ _ _ Hu Hi Hs Ha).
  split; do 2 eexists; (split; [reflexivity |]); split;
    try (apply split_token; now apply signed_value_no_colon);
    intros t ts_duo ts_app; rewrite <- (_sign_vals_wire akey);
    now apply _verify_response_response_window.
Qed.

(** X8.  The shape of a token does not depend on what the username is made
    of: with valid arguments, for every username (also one with [":"] or
    ["|"]), the result of [sign_request] has exactly one [":"], each half
    has exactly three fields at ["|"], the first fields are [TX] and [APP],
    and both payloads decode to [username|ikey|expiration]. *)
Theorem token_shape (ikey skey akey username : string) (t_duo t_app : Z) :
  valid_inputs ikey skey akey username ->
  exists token duo_sig app_sig b64 sig app_b64 app_sig',
    sign_request ikey skey akey username t_duo t_app = Return token
    /\ count ":" token = 1%nat
    /\ split ":" token = [duo_sig; app_sig]
    /\ split "|" duo_sig = ["TX"; b64; sig]
    /\ split "|" app_sig = ["APP"; app_b64; app_sig']
    /\ b64decode b64
       = Return (join "|" [username; ikey; py_str (t_duo + 300)])
    /\ b64decode app_b64
       = Return (join "|" [username; ikey; py_str (t_app + 3600)]).
Proof.
  intros (Hu & Hi & Hs & Ha). unfold sign_request.
  rewrite (_sign_request_valid _ _ _ _ _ _ _ Hu Hi Hs Ha).
  do 7 eexists. split; [reflexivity |].
  assert (S : split ":"
                (signed_value DUO_PREFIX skey username ikey
                   (t_duo + DUO_EXPIRE)
                 ++ ":" ++ signed_value APP_PREFIX akey username ikey
                             (t_app + APP_EXPIRE))
              = [signed_value DUO_PREFIX skey username ikey
                   (t_duo + DUO_EXPIRE);
                 signed_value APP_PREFIX akey username ikey
                   (t_app + APP_EXPIRE)])
    by (apply split_token; now apply signed_value_no_colon).
  split; [| split; [exact S | split; [| split; [| split]]]].
  - pose proof (length_split ":"
                  (signed_value DUO_PREFIX skey username ikey
                     (t_duo + DUO_EXPIRE)
                   ++ ":" ++ signed_value APP_PREFIX akey username ikey
                               (t_app + APP_EXPIRE))) as Len.
    rewrite S in Len. cbn [List.length] in Len. lia.
  - now apply split_signed_value.
  - now apply split_signed_value.
  - unfold payload. now rewrite b64_roundtrip.
  - unfold payload. now rewrite b64_roundtrip.
Qed.

(** Parsing under another key than the signing one. *)
Lemma _parse_vals_other_key (key key' prefix prefix' u i : string) (e ts : Z) :
  contains "|" prefix = false ->
  _hmac_sha1 key' (_hmac_sha1 key' (prefix ++ "|" ++ payload u i e))
  <> _hmac_sha1 key' (_hmac_sha1 key (prefix ++ "|" ++ payload u i e)) ->
  _parse_vals key' (signed_value prefix key u i e) prefix' ts = Return None.
Proof.
  intros Hp N.
  rewrite (_parse_vals_fields _ _ _ _ _ _ _
             (split_signed_value prefix key u i e Hp)).
  unfold sig_matches.
  destruct (String.eqb_spec
              (_hmac_sha1 key' (_hmac_sha1 key' (prefix ++ "|" ++ payload u i e)))
              (_hmac_sha1 key' (hmac_sha1_hexdigest key
                                  (prefix ++ "|" ++ payload u i e))));
    [contradiction | reflexivity].
Qed.

(** X9.  A response is refused under a wrong key: verified with a secret
    key [skey'] under which the keyed digest of the recomputed signature
    differs from the keyed digest of the signature made with [skey],
    [verify_response] returns [None]; likewise with a wrong application
    key [akey'] for the second half. *)
Theorem wrong_key_is_refused
    (ikey skey akey skey' akey' u i : string)
    (t_duo t_app ts_duo ts_app : Z) :
  let cookie := AUTH_PREFIX ++ "|" ++ payload u i (t_duo + 300) in
  let app_cookie := APP_PREFIX ++ "|" ++ payload u i (t_app + 3600) in
  let token := response AUTH_PREFIX skey akey u i t_duo t_app in
  (_hmac_sha1 skey' (_hmac_sha1 skey' cookie)
   <> _hmac_sha1 skey' (_hmac_sha1 skey cookie) ->
   verify_response ikey skey' akey token ts_duo ts_app = Return None)
  /\ (_hmac_sha1 akey' (_hmac_sha1 akey' app_cookie)
      <> _hmac_sha1 akey' (_hmac_sha1 akey app_cookie) ->
      verify_response ikey skey akey' token ts_duo ts_app = Return None).
Proof.
  intros cookie app_cookie token. unfold verify_response, token. split.
  - intros N. apply _verify_response_duo_no_user. intros s a v E.
    rewrite split_response in E by reflexivity. injection E as <- _.
    rewrite _sign_vals_wire, _parse_vals_other_key;
      [discriminate | reflexivity | exact N].
  - intros N.
    destruct (_verify_response_cases ikey skey akey' AUTH_PREFIX
                (response AUTH_PREFIX skey akey u i t_duo t_app)
                ts_duo ts_app) as [R | (s & a & v & E & _ & P2 & _)];
      [exact R | exfalso].
    rewrite split_response in E by reflexivity. injection E as _ <-.
    rewrite _sign_vals_wire, _parse_vals_other_key in P2;
      [discriminate | reflexivity | exact N].
Qed.

(** X10.  Tokens tell usernames apart: when [sign_request] (or
    [sign_enroll_request]) returns the same result for two usernames, with
    the same valid keys and clock readings, the usernames are equal. *)
Theorem tokens_determine_username
    (ikey skey akey u1 u2 : string) (t_duo t_app : Z) :
  valid_inputs ikey skey akey u1 -> valid_inputs ikey skey akey u2 ->
  sign_request ikey skey akey u1 t_duo t_app
  = sign_request ikey skey akey u2 t_duo t_app
  \/ sign_enroll_request ikey skey akey u1 t_duo t_app
     = sign_enroll_request ikey skey akey u2 t_duo t_app ->
  u1 = u2.
Proof.
  intros (Hu1 & Hi & Hs & Ha) (Hu2 & _ & _ & _) H.
  assert (X : forall prefix,
             contains ":" prefix = false -> contains "|" prefix = false ->
             _sign_request ikey skey akey u1 prefix t_duo t_app
             = _sign_request ikey skey akey u2 prefix t_duo t_app ->
             u1 = u2).
  { intros prefix Hc Hp E.
    rewrite (_sign_request_valid _ _ _ _ _ _ _ Hu1 Hi Hs Ha) in E.
    rewrite (_sign_request_valid _ _ _ _ _ _ _ Hu2 Hi Hs Ha) in E.
    injection E as E. apply (f_equal (split ":")) in E.
    rewrite !split2 in E
      by (apply signed_value_no_colon; assumption || reflexivity).
    injection E as E _. apply (f_equal (split "|")) in E.
    rewrite !split_signed_value in E by assumption.
    injection E as E _. apply (f_equal b64decode) in E.
    unfold payload in E. rewrite !b64_roundtrip in E. injection E as E.
    exact (append_cancel_r _ _ _ E). }
  unfold sign_request, sign_enroll_request in H.
  destruct H as [H | H]; apply X in H; auto.
Qed.

(** [_sign_vals] on any list of values. *)
Lemma split_sign_vals (key : string) (vals : list string) (prefix : string)
    (expire now : Z) :
  contains "|" prefix = false ->
  split "|" (_sign_vals key vals prefix expire now)
  = [prefix;
     b64encode (join "|" (vals ++ [py_str (now + expire)])%list);
     _hmac_sha1 key
       (prefix ++ "|"
        ++ b64encode (join "|" (vals ++ [py_str (now + expire)])%list))].
Proof.
  intros Hp. unfold _sign_vals. rewrite app_assoc_str. cbn [append].
  apply split3; [assumption | apply b64_no_pipe | apply hex_no_pipe].
Qed.

(** X11.  [_parse_vals] reads back what [_sign_vals] signed from exactly
    two values: for values and a prefix without ["|"], parsing the signed
    value under the same key and prefix returns the first value before
    the expiration and [None] from the expiration on when there are two
    values, and raises [ValueError] for any other number of values. *)
Theorem parse_of_sign
    (key : string) (vals : list string) (prefix : string)
    (expire now ts : Z) :
  contains "|" prefix = false ->
  Forall (fun v => contains "|" v = false) vals ->
  _parse_vals key (_sign_vals key vals prefix expire now) prefix ts
  = match vals with
    | [user; _] =>
        Return (if ts >=? now + expire then None else Some user)
    | _ => Raise ValueError
    end.
Proof.
  intros Hp F.
  rewrite (_parse_vals_fields _ _ _ _ _ _ _
             (split_sign_vals key vals prefix expire now Hp)).
  unfold sig_matches. rewrite !String.eqb_refl. cbn [negb].
  rewrite b64_roundtrip. cbn [bind].
  change "|" with (String "|" "") at 1.
  rewrite split_join.
  - destruct vals as [|u [|i [|x r]]]; cbn [List.app unpack3 bind];
      try reflexivity.
    + rewrite int_str. cbn [bind]. now destruct (ts >=? now + expire).
    + destruct r; reflexivity.
  - now destruct vals.
  - apply Forall_app. split; [assumption |].
    constructor; [apply py_str_no_pipe | constructor].
Qed.

End Protocol.

Lemma protocol_round_trip_witness :
  exists duo_sig app_sig,
    sign_request (P := Reference.primitives) Sample.ikey Sample.skey
      Sample.akey Sample.username Sample.now Sample.now
    = Return (duo_sig ++ ":" ++ app_sig)
    /\ verify_response Sample.ikey Sample.skey Sample.akey
         (_sign_vals Sample.skey [Sample.username; Sample.ikey] AUTH_PREFIX
            DUO_EXPIRE (Sample.now + 10) ++ ":" ++ app_sig)
         (Sample.now + 309) (Sample.now + 3599)
       = Return (Some Sample.username)
    /\ verify_response Sample.ikey Sample.skey Sample.akey
         (_sign_vals Sample.skey [Sample.username; Sample.ikey] AUTH_PREFIX
            DUO_EXPIRE (Sample.now + 10) ++ ":" ++ app_sig)
         (Sample.now + 309) (Sample.now + 3600)
       = Return None.
Proof.
  destruct (proj1 (protocol_round_trip (L := reference_lawful)
                     Sample.ikey Sample.skey Sample.akey Sample.username
                     Sample.now Sample.now Sample.valid eq_refl eq_refl))
    as (d & a & E & _ & V).
  exists d, a. split; [exact E |]. split; rewrite V; reflexivity.
Defined.

Lemma token_shape_witness :
  exists token,
    sign_request (P := Reference.primitives) Sample.ikey Sample.skey
      Sample.akey "j|s:mith" Sample.now Sample.now = Return token
    /\ count ":" token = 1%nat.
Proof.
  assert (V : valid_inputs Sample.ikey Sample.skey Sample.akey "j|s:mith")
    by (repeat split; [discriminate | apply Nat.le_refl]).
  destruct (token_shape (L := reference_lawful)
              Sample.ikey Sample.skey Sample.akey "j|s:mith"
              Sample.now Sample.now V)
    as (token & _ & _ & _ & _ & _ & _ & E & C & _).
  exists token. split; assumption.
Defined.

(** The sample response verified with the application key in the place of
    the secret key. *)
Lemma wrong_key_is_refused_witness :
  verify_response (P := Reference.primitives)
    Sample.ikey Sample.akey Sample.akey
    (response AUTH_PREFIX Sample.skey Sample.akey Sample.username
       Sample.ikey Sample.now Sample.now) Sample.now Sample.now
  = Return None.
Proof.
  apply (proj1 (wrong_key_is_refused (L := reference_lawful)
                  Sample.ikey Sample.skey Sample.akey Sample.akey
                  Sample.akey Sample.username Sample.ikey
                  Sample.now Sample.now Sample.now Sample.now)).
  vm_compute. discriminate.
Defined.

Lemma tokens_determine_username_witness :
  exists token token',
    sign_request (P := Reference.primitives) Sample.ikey Sample.skey
      Sample.akey "alice" Sample.now Sample.now = Return token
    /\ sign_request (P := Reference.primitives) Sample.ikey Sample.skey
         Sample.akey "bob" Sample.now Sample.now = Return token'
    /\ token <> token'.
Proof.
  assert (V : forall u, u <> "" ->
                        valid_inputs Sample.ikey Sample.skey Sample.akey u)
    by (intros u Hu; repeat split; [assumption | apply Nat.le_refl]).
  assert (Va : "alice" <> "") by discriminate.
  assert (Vb : "bob" <> "") by discriminate.
  pose proof (_sign_request_valid (P := Reference.primitives)
                Sample.ikey Sample.skey Sample.akey "alice" DUO_PREFIX
                Sample.now Sample.now Va eq_refl eq_refl (Nat.le_refl 40))
    as Ea.
  pose proof (_sign_request_valid (P := Reference.primitives)
                Sample.ikey Sample.skey Sample.akey "bob" DUO_PREFIX
                Sample.now Sample.now Vb eq_refl eq_refl (Nat.le_refl 40))
    as Eb.
  do 2 eexists. split; [exact Ea | split; [exact Eb |]].
  intros E.
  assert (A : "alice" = "bob").
  { apply (tokens_determine_username (L := reference_lawful)
             Sample.ikey Sample.skey Sample.akey "alice" "bob"
             Sample.now Sample.now (V _ Va) (V _ Vb)).
    left. unfold sign_request. rewrite Ea, Eb. exact (f_equal Return E). }
  discriminate A.
Defined.

Lemma parse_of_sign_witness :
  _parse_vals (P := Reference.primitives) Sample.skey
    (_sign_vals Sample.skey [Sample.username; Sample.ikey] AUTH_PREFIX
       300 Sample.now) AUTH_PREFIX Sample.now
  = Return (Some Sample.username)
  /\ _parse_vals (P := Reference.primitives) Sample.skey
       (_sign_vals Sample.skey [Sample.username] AUTH_PREFIX
          300 Sample.now) AUTH_PREFIX Sample.now
     = Raise ValueError
  /\ _parse_vals (P := Reference.primitives) Sample.skey
       (_sign_vals Sample.skey [Sample.username; Sample.ikey; "x"]
          AUTH_PREFIX 300 Sample.now) AUTH_PREFIX Sample.now
     = Raise ValueError.
Proof.
  repeat apply conj;
    rewrite (parse_of_sign (L := reference_lawful))
      by (first [reflexivity | repeat constructor]);
    reflexivity.
Defined.
